(** * TaggerModel: a shallow embedding of [mmworkbench/models/tagger_models.py]

    The module wraps a sequence classifier (MEMM or CRF).  Everything the
    wrapper itself does is embedded here: construction with default feature
    injection, [__getstate__], [fit] with its joint shuffle, [predict],
    [evaluate] and [_get_model_constructor].  The classifiers, the label
    encoder, the random source and the cross-validated search are external
    collaborators and appear as the fields of the class [Collaborators].

    Python objects that are mutated in place are kept in an explicit state:
    the instance attributes, the store of resource dictionaries (so that two
    references to one dict are seen as such), the random source, and a trace
    of the calls made to the logger and to the collaborators. *)

From Stdlib Require Import ZArith String Ascii List DecimalString.
From stdpp Require Import base option list gmap strings fin_maps fin_sets sets.

Open Scope string_scope.
Open Scope list_scope.
Open Scope nat_scope.

(** ** Python values that occur in configuration dictionaries *)

#[local] Set Warnings "-register-all".

Inductive PyVal : Type :=
| VNone
| VBool (b : bool)
| VInt (z : Z)
| VStr (s : string)
| VList (items : list PyVal)
| VDict (items : list (PyVal * PyVal)).

Module PyRepr.

(** [repr] of a [str] as CPython 3 computes it, on code points below 256:
    single quotes unless the text has a single quote and no double quote;
    the quote and the backslash escaped by a backslash; tab, newline and
    carriage return by their letter; every other non-printable code point
    as a two-digit lower-case hexadecimal escape. *)

Definition squote : ascii := ascii_of_nat 39.
Definition dquote : ascii := ascii_of_nat 34.
Definition backslash : ascii := ascii_of_nat 92.

Definition hex_digit (n : nat) : ascii :=
  match String.get n "0123456789abcdef" with
  | Some c => c
  | None => "0"%char
  end.

Definition hex_escape (n : nat) : string :=
  String backslash
    (String "x" (String (hex_digit (n / 16)) (String (hex_digit (n mod 16)) ""))).

Definition printable (n : nat) : bool :=
  if (n <? 32)%nat then false
  else if (n <? 127)%nat then true
  else if (n <=? 160)%nat then false
  else negb (n =? 173)%nat.

Definition repr_char (quote c : ascii) : string :=
  let n := nat_of_ascii c in
  if Ascii.eqb c quote || Ascii.eqb c backslash then String backslash (String c "")
  else if (n =? 9)%nat then String backslash "t"
  else if (n =? 10)%nat then String backslash "n"
  else if (n =? 13)%nat then String backslash "r"
  else if printable n then String c ""
  else hex_escape n.

Fixpoint has_char (c : ascii) (s : string) : bool :=
  match s with
  | EmptyString => false
  | String d s' => Ascii.eqb c d || has_char c s'
  end.

Definition pick_quote (s : string) : ascii :=
  if has_char squote s && negb (has_char dquote s) then dquote else squote.

Fixpoint repr_body (quote : ascii) (s : string) : string :=
  match s with
  | EmptyString => ""
  | String c s' => repr_char quote c +:+ repr_body quote s'
  end.

Definition repr_str (s : string) : string :=
  let q := pick_quote s in
  String q (repr_body q s +:+ String q "").

Definition repr_int (z : Z) : string :=
  NilZero.string_of_int (Z.to_int z).

Fixpoint join (sep : string) (l : list string) : string :=
  match l with
  | [] => ""
  | [x] => x
  | x :: rest => x +:+ sep +:+ join sep rest
  end.

Fixpoint repr (v : PyVal) : string :=
  match v with
  | VNone => "None"
  | VBool true => "True"
  | VBool false => "False"
  | VInt z => repr_int z
  | VStr s => repr_str s
  | VList items => "[" +:+ join ", " (List.map repr items) +:+ "]"
  | VDict items =>
      "{" +:+ join ", " (List.map (fun kv => repr (fst kv) +:+ ": " +:+ repr (snd kv)) items)
          +:+ "}"
  end.

(** Only immutable values can be dictionary keys. *)
Definition hashable (v : PyVal) : bool :=
  match v with
  | VList _ | VDict _ => false
  | _ => true
  end.

End PyRepr.

(** ** Data model *)

(** Hyperparameters and feature specifications are keyword dictionaries. *)
Abbreviation Params := (gmap string PyVal).

(** [ModelConfig] lives in [mmworkbench/models/model.py], which is not among
    the sources at hand.

    Modelled from the spec: ModelConfig is an immutable bundle holding
    [features] (feature-extractor name to its parameter dict),
    [model_settings] (which includes ["classifier_type"]), [params],
    [param_selection] and [label_type]; [to_dict] lists these fields and the
    constructor called on that dictionary rebuilds the bundle. *)
Record ModelConfig : Type := mkModelConfig {
  features : option (gmap string PyVal);
  model_settings : gmap string PyVal;
  params : option Params;
  param_selection : option PyVal;
  label_type : string
}.

(** [config.to_dict()], then [config_dict['features'] = v], then the
    [ModelConfig] constructor applied to the keywords of [config_dict]. *)
Definition with_features (c : ModelConfig) (v : gmap string PyVal) : ModelConfig :=
  {| features := Some v;
     model_settings := model_settings c;
     params := params c;
     param_selection := param_selection c;
     label_type := label_type c |}.

(** classifier types *)
Definition CRF_TYPE : string := "crf".
Definition MEMM_TYPE : string := "memm".

Definition DEFAULT_FEATURES : gmap string PyVal :=
  <["bag-of-words-seq" :=
      VDict [(VStr "ngram_lengths_to_start_positions",
              VDict [(VInt 1, VList [VInt (-2); VInt (-1); VInt 0; VInt 1; VInt 2]);
                     (VInt 2, VList [VInt (-2); VInt (-1); VInt 0; VInt 1])])]]>
  (<["in-gaz-span-seq" := VDict []]>
  (<["sys-candidates-seq" :=
      VDict [(VStr "start_positions", VList [VInt (-1); VInt 0; VInt 1])]]> ∅)).

(** An entity annotation: only [entity.entity.type] is read by the wrapper,
    the span is carried along untouched. *)
Record Entity : Type := mkEntity { type : string; text : string }.
Record QueryEntity : Type := mkQueryEntity { entity : Entity; span : nat * nat }.

(** A label is the tuple of the entities of one query. *)
Abbreviation Label := (list QueryEntity).

(** The two classes [_get_model_constructor] can return. *)
Inductive ClfClass : Type := MemmModel | ConditionalRandomFields.

(** Who raised an error that the wrapper lets through. *)
Inductive Collaborator : Type := Helper | LabelEncoder | Classifier | ParamSearch.

(** Exceptions: those the wrapper's own statements raise, and the ones
    coming out of a collaborator call, which are never caught here. *)
Inductive Exn : Type :=
| IndexError
| KeyError (key : string)
| TypeError (msg : string)
| AttributeError (msg : string)
| ValueError (msg : string)
| CollaboratorError (who : Collaborator) (msg : string).

Inductive PyResult (A : Type) : Type :=
| Return (a : A)
| Raise (e : Exn).
Arguments Return {A} a.
Arguments Raise {A} e.

(** Python truth value of an optional dictionary ([None] and [{}] are false). *)
Definition truthy (d : option (gmap string PyVal)) : bool :=
  match d with
  | None => false
  | Some m => negb (bool_decide (m = ∅))
  end.

(** [a or b] on optional dictionaries. *)
Definition py_or (a b : option Params) : option Params :=
  if truthy a then a else b.

(** References into the store of resource dictionaries. *)
Abbreviation loc := positive.

(** ** Collaborators

    Every call that leaves the module: the random source behind
    [random.shuffle], the classifier classes, the label encoder obtained from
    [get_label_encoder], and the grouped cross-validation of the base class
    ([Model._fit_cv]).  A collaborator either answers or fails with a
    message; classifier objects are mutable, so a call hands back the new
    state of the object it was made on.  A call is modelled by what it
    answers from its arguments, the resource dictionary being read as it is
    when the call is made; what a collaborator may itself write to that
    dictionary is outside this model. *)

Class Collaborators : Type := {
  Query : Type;
  Resource : Type;
  Clf : Type;
  Encoder : Type;
  Tags : Type;
  Encoded : Type;
  FeatureMatrix : Type;
  Targets : Type;
  Groups : Type;
  RngState : Type;
  (** [random._randbelow n]: an integer in [range(n)]. *)
  randbelow : RngState → nat → nat * RngState;
  randbelow_lt : ∀ g n, 0 < n → (randbelow g n).1 < n;
  instantiate : ClfClass → string + Clf;
  setup_model : Clf → ModelConfig → string + Clf;
  extract_features :
    Clf → list Query → ModelConfig → gmap string Resource → Encoded → bool →
    string + (FeatureMatrix * Targets * Groups * Clf);
  set_params : Clf → Params → string + Clf;
  clf_fit : Clf → FeatureMatrix → Targets → string + Clf;
  extract_and_predict :
    Clf → list Query → ModelConfig → gmap string Resource → string + list Tags;
  get_label_encoder : ModelConfig → string + Encoder;
  label_encode : Encoder → list Label → list Query → string + Encoded;
  label_decode : Encoder → list Tags → list Query → string + list Label;
  _fit_cv : Clf → ModelConfig → FeatureMatrix → Targets → Groups → string + Params
}.

Section Tagger.

Context `{C : Collaborators}.

(** What the module asks of the outside, in the order it asks. *)
Inductive Event : Type :=
| LogWarning (msg : string)
| CallInstantiate (cls : ClfClass)
| CallSetupModel (cfg : ModelConfig)
| CallGetLabelEncoder (cfg : ModelConfig)
| CallEncode (labels : list Label) (examples : list Query)
| CallExtractFeatures (examples : list Query) (y : Encoded) (fit_flag : bool)
| CallSetParams (p : Params)
| CallClfFit (X : FeatureMatrix) (y : Targets)
| CallFitCV (X : FeatureMatrix) (y : Targets) (groups : Groups)
| CallExtractAndPredict (examples : list Query)
| CallDecode (tags : list Tags) (examples : list Query).

Record World : Type := mkWorld {
  heap : gmap loc (gmap string Resource);
  trace : list Event;
  rng : RngState
}.

(** The attributes of an instance ([self.__dict__]); [_resources] is a
    reference to a dictionary of the store, [types] exists after [fit]. *)
Record TaggerModel : Type := mkTaggerModel {
  class_name : string;
  config : ModelConfig;
  _resources : loc;
  _clf : option Clf;
  _label_encoder : option Encoder;
  _current_params : option Params;
  _no_entities : bool;
  types : option (list string)
}.

(** The attributes the base class creates on an instance.  The degenerate
    flag is not among them: it is an attribute of the tagger alone, created
    by the assignment at the end of [TaggerModel.__init__]. *)
Record Model : Type := mkModel {
  base_class_name : string;
  base_config : ModelConfig;
  base_resources : loc;
  base_clf : option Clf;
  base_label_encoder : option Encoder;
  base_current_params : option Params
}.

Record EvaluatedExample : Type := mkEvaluatedExample {
  ee_example : Query;
  ee_expected : Label;
  ee_predicted : Label;
  ee_probas : option unit;
  ee_label_type : string
}.

Record EntityModelEvaluation : Type := mkEntityModelEvaluation {
  eme_config : ModelConfig;
  eme_results : list EvaluatedExample
}.

(** ** The monad of a method call: the instance and the world are threaded,
    and both survive an exception. *)

Definition State : Type := TaggerModel * World.
Definition M (A : Type) : Type := State → PyResult A * State.

Definition ret {A} (a : A) : M A := λ s, (Return a, s).
Definition raise {A} (e : Exn) : M A := λ s, (Raise e, s).
Definition bind {A B} (c : M A) (k : A → M B) : M B :=
  λ s, match c s with
       | (Return a, s') => k a s'
       | (Raise e, s') => (Raise e, s')
       end.

Notation "x <- c ;; k" := (bind c (λ x, k))
  (at level 100, c at next level, right associativity, only parsing).
Notation "c ;;; k" := (bind c (λ _, k))
  (at level 100, right associativity, only parsing).

Definition get_self : M TaggerModel := λ s, (Return s.1, s).
Definition modify_self (f : TaggerModel → TaggerModel) : M unit :=
  λ s, (Return (), (f s.1, s.2)).
Definition emit (e : Event) : M unit :=
  λ s, (Return (),
        (s.1, {| heap := heap s.2; trace := trace s.2 ++ [e]; rng := rng s.2 |})).

(** A collaborator call: recorded, then made; its failure propagates as it is. *)
Definition call {A} (who : Collaborator) (e : Event) (r : string + A) : M A :=
  emit e ;;;
  match r with
  | inr a => ret a
  | inl msg => raise (CollaboratorError who msg)
  end.

Definition read_dict (r : loc) : M (gmap string Resource) :=
  λ s, (Return (heap s.2 !!! r), s).
Definition write_dict (r : loc) (d : gmap string Resource) : M unit :=
  λ s, (Return (),
        (s.1, {| heap := <[r := d]> (heap s.2); trace := trace s.2; rng := rng s.2 |})).

Definition draw (n : nat) : M nat :=
  λ s, let (j, g) := randbelow (rng s.2) n in
       (Return j, (s.1, {| heap := heap s.2; trace := trace s.2; rng := g |})).

Fixpoint traverse {A B} (f : A → M B) (l : list A) : M (list B) :=
  match l with
  | [] => ret []
  | a :: l' => b <- f a ;; bs <- traverse f l' ;; ret (b :: bs)
  end.

Fixpoint for_each {A} (f : A → M unit) (l : list A) : M unit :=
  match l with
  | [] => ret ()
  | a :: l' => f a ;;; for_each f l'
  end.

(** [l[i]] for a non-negative index. *)
Definition getitem {A} (l : list A) (i : nat) : M A :=
  match l !! i with
  | Some a => ret a
  | None => raise IndexError
  end.

(** Attribute assignments. *)
Definition set_clf (c : Clf) : M unit :=
  modify_self (λ m, {| class_name := class_name m; config := config m;
    _resources := _resources m; _clf := Some c; _label_encoder := _label_encoder m;
    _current_params := _current_params m; _no_entities := _no_entities m;
    types := types m |}).
Definition set_label_encoder (e : Encoder) : M unit :=
  modify_self (λ m, {| class_name := class_name m; config := config m;
    _resources := _resources m; _clf := _clf m; _label_encoder := Some e;
    _current_params := _current_params m; _no_entities := _no_entities m;
    types := types m |}).
Definition set_current_params (p : option Params) : M unit :=
  modify_self (λ m, {| class_name := class_name m; config := config m;
    _resources := _resources m; _clf := _clf m; _label_encoder := _label_encoder m;
    _current_params := p; _no_entities := _no_entities m;
    types := types m |}).
Definition set_no_entities (b : bool) : M unit :=
  modify_self (λ m, {| class_name := class_name m; config := config m;
    _resources := _resources m; _clf := _clf m; _label_encoder := _label_encoder m;
    _current_params := _current_params m; _no_entities := b;
    types := types m |}).
Definition set_types (t : list string) : M unit :=
  modify_self (λ m, {| class_name := class_name m; config := config m;
    _resources := _resources m; _clf := _clf m; _label_encoder := _label_encoder m;
    _current_params := _current_params m; _no_entities := _no_entities m;
    types := Some t |}).

(** Reading [self._clf.<method>] when [_clf] is still [None]. *)
Definition get_clf : M Clf :=
  self <- get_self ;;
  match _clf self with
  | Some c => ret c
  | None => raise (AttributeError "'NoneType' object has no attribute")
  end.
Definition get_encoder : M Encoder :=
  self <- get_self ;;
  match _label_encoder self with
  | Some e => ret e
  | None => raise (AttributeError "'NoneType' object has no attribute")
  end.

(** ** [random.shuffle]

    The loop of CPython's [Random.shuffle]: for [i] from [len(x) - 1] down
    to [1], draw [j] below [i + 1] and exchange [x[i]] and [x[j]]. *)

Definition swap (x : list nat) (i j : nat) : M (list nat) :=
  xj <- getitem x j ;;
  xi <- getitem x i ;;
  ret (<[j := xi]> (<[i := xj]> x)).

Fixpoint shuffle_from (i : nat) (x : list nat) : M (list nat) :=
  match i with
  | 0 => ret x
  | S i' => j <- draw (S i' + 1) ;; x' <- swap x (S i') j ;; shuffle_from i' x'
  end.

Definition shuffle (x : list nat) : M (list nat) :=
  shuffle_from (length x - 1) x.

(** ** Construction *)

(** Python's [not config.features]. *)
Definition no_features (c : ModelConfig) : bool := negb (truthy (features c)).

(** Modelled from the spec: [Model.__init__], the base-class initialiser of
    [mmworkbench/models/model.py] (not among the sources).  It keeps the
    configuration it is given, starts with no classifier, no label encoder
    and no current parameters, and owns a resource cache of its own, here a
    fresh empty dictionary of the store. *)
Definition Model__init__ (cls : string) (cfg : ModelConfig) (w : World)
  : Model * World :=
  let r := fresh (dom (heap w)) in
  ({| base_class_name := cls; base_config := cfg; base_resources := r;
      base_clf := None; base_label_encoder := None;
      base_current_params := None |},
   {| heap := <[r := ∅]> (heap w); trace := trace w; rng := rng w |}).

(** [self._no_entities = False] on an instance that has the attributes of
    the base class only: the assignment creates the flag.  [types] does not
    exist before [fit]. *)
Definition create_no_entities (base : Model) (flag : bool) : TaggerModel :=
  {| class_name := base_class_name base; config := base_config base;
     _resources := base_resources base; _clf := base_clf base;
     _label_encoder := base_label_encoder base;
     _current_params := base_current_params base;
     _no_entities := flag; types := None |}.

Definition TaggerModel__init__ (cfg : ModelConfig) (w : World)
  : PyResult TaggerModel * World :=
  let cfg' := if no_features cfg then with_features cfg DEFAULT_FEATURES else cfg in
  let '(base, w') := Model__init__ "TaggerModel" cfg' w in
  let self := create_no_entities base false in
  (Return self, w').

(** ** [__getstate__] *)

Definition resources_to_persist : gset string := {["sys_types"]}.

(** [del d[key]] on the dictionary at [r]. *)
Definition delitem (r : loc) (key : string) : M unit :=
  d <- read_dict r ;;
  match d !! key with
  | Some _ => write_dict r (delete key d)
  | None => raise (KeyError key)
  end.

(** [self.__dict__.copy()] is shallow: the copy holds the same reference
    [_resources] as the instance, so the deletions are made on the one
    dictionary both of them see. *)
Definition __getstate__ : M TaggerModel :=
  attributes <- get_self ;;
  d <- read_dict (_resources attributes) ;;
  for_each (λ key,
           if bool_decide (key ∉ resources_to_persist)
           then delitem (_resources attributes) key
           else ret ())
        (map_to_list d).*1 ;;;
  ret attributes.

(** ** Classifier selection *)

Definition not_recognized (cls : string) (classifier_type : PyVal) : string :=
  cls +:+ ": Classifier type " +:+ PyRepr.repr classifier_type +:+ " not recognized".

Definition _get_model_constructor : M ClfClass :=
  self <- get_self ;;
  match model_settings (config self) !! "classifier_type" with
  | None => raise (KeyError "classifier_type")
  | Some classifier_type =>
      if PyRepr.hashable classifier_type then
        match classifier_type with
        | VStr s =>
            if String.eqb s MEMM_TYPE then ret MemmModel
            else if String.eqb s CRF_TYPE then ret ConditionalRandomFields
            else raise (ValueError (not_recognized (class_name self) classifier_type))
        | _ => raise (ValueError (not_recognized (class_name self) classifier_type))
        end
      else raise (TypeError "unhashable type")
  end.

(** ** Training *)

Definition is_none {A} (o : option A) : bool :=
  match o with None => true | Some _ => false end.

Definition entity_types (labels : list Label) : list string :=
  label ← labels; (λ e, type (entity e)) <$> label.

Definition no_fit_warning : string :=
  "There are no labels in this label set, so we don't fit the model.".
Definition no_eval_warning : string :=
  "There are no labels in this label set, so we don't run model evaluation.".

(** [self.config.params] *)
Definition config_params (self : TaggerModel) : option Params := params (config self).

Definition _fit (X : FeatureMatrix) (y : Targets) (params : option Params) : M Clf :=
  clf <- get_clf ;;
  match params with
  | None => raise (TypeError "argument after ** must be a mapping, not NoneType")
  | Some p =>
      clf' <- call Classifier (CallSetParams p) (set_params clf p) ;;
      set_clf clf' ;;;
      call Classifier (CallClfFit X y) (clf_fit clf' X y)
  end.

(** [params is not None or self.config.param_selection is None] *)
Definition skip_param_selection (params : option Params) (self : TaggerModel) : bool :=
  negb (is_none params) || is_none (param_selection (config self)).

(** Everything [fit] does once the two lists are shuffled. *)
Definition fit_shuffled (skip_param_selection : bool) (params : option Params)
    (examples : list Query) (labels : list Label) : M TaggerModel :=
  let types := entity_types labels in
  set_types types ;;;
  if bool_decide (size (list_to_set types : gset string) = 0) then
    set_no_entities true ;;;
    emit (LogWarning no_fit_warning) ;;;
    get_self
  else
    (* Get model classifier and initialize *)
    cls <- _get_model_constructor ;;
    clf <- call Classifier (CallInstantiate cls) (instantiate cls) ;;
    set_clf clf ;;;
    self <- get_self ;;
    clf <- call Classifier (CallSetupModel (config self)) (setup_model clf (config self)) ;;
    set_clf clf ;;;
    (* Extract labels *)
    enc <- call Helper (CallGetLabelEncoder (config self)) (get_label_encoder (config self)) ;;
    set_label_encoder enc ;;;
    y <- call LabelEncoder (CallEncode labels examples) (label_encode enc labels examples) ;;
    (* Extract features *)
    res <- read_dict (_resources self) ;;
    out <- call Classifier (CallExtractFeatures examples y true)
             (extract_features clf examples (config self) res y true) ;;
    let '(X, y, groups, clf) := out in
    set_clf clf ;;;
    (* Fit the model *)
    if skip_param_selection then
      fitted <- _fit X y params ;;
      set_clf fitted ;;;
      set_current_params params ;;;
      get_self
    else
      best_params <- call ParamSearch (CallFitCV X y groups)
                       (_fit_cv clf (config self) X y groups) ;;
      fitted <- _fit X y (Some best_params) ;;
      set_clf fitted ;;;
      set_current_params (Some best_params) ;;;
      get_self.

Definition fit (examples : list Query) (labels : list Label) (params : option Params)
  : M TaggerModel :=
  self <- get_self ;;
  let skip_param_selection := skip_param_selection params self in
  let params := py_or params (config_params self) in
  (* Shuffle to prevent order effects *)
  indices <- shuffle (seq 0 (length labels)) ;;
  examples <- traverse (getitem examples) indices ;;
  labels <- traverse (getitem labels) indices ;;
  fit_shuffled skip_param_selection params examples labels.

(** ** Prediction and evaluation *)

Definition predict (examples : list Query) : M (list Label) :=
  self <- get_self ;;
  if _no_entities self then ret [ [] ]
  else
    (* Process the data to generate features and predict the tags *)
    clf <- get_clf ;;
    res <- read_dict (_resources self) ;;
    predicted_tags <- call Classifier (CallExtractAndPredict examples)
                        (extract_and_predict clf examples (config self) res) ;;
    (* Decode the tags to labels *)
    traverse (λ pair,
            enc <- get_encoder ;;
            decoded <- call LabelEncoder (CallDecode [pair.1] [pair.2])
                         (label_decode enc [pair.1] [pair.2]) ;;
            getitem decoded 0)
         (zip predicted_tags examples).

(** Modelled from the spec: [Model._get_effective_config] of the base class
    (not among the sources): the configuration annotated with the
    hyperparameters actually selected during fit. *)
Definition _get_effective_config : M ModelConfig :=
  self <- get_self ;;
  ret {| features := features (config self);
         model_settings := model_settings (config self);
         params := _current_params self;
         param_selection := param_selection (config self);
         label_type := label_type (config self) |}.

Definition evaluate (examples : list Query) (labels : list Label)
  : M (option EntityModelEvaluation) :=
  self <- get_self ;;
  if _no_entities self then
    emit (LogWarning no_eval_warning) ;;;
    ret None
  else
    predictions <- predict examples ;;
    evaluations <- traverse (λ ie,
                           expected <- getitem labels ie.1 ;;
                           predicted <- getitem predictions ie.1 ;;
                           ret {| ee_example := ie.2; ee_expected := expected;
                                  ee_predicted := predicted; ee_probas := None;
                                  ee_label_type := label_type (config self) |})
                        (zip (seq 0 (length examples)) examples) ;;
    cfg <- _get_effective_config ;;
    ret (Some {| eme_config := cfg; eme_results := evaluations |}).

(** ** Vocabulary of the statements *)

(** The state with another random source and nothing else changed. *)
Definition with_rng (s : State) (g : RngState) : State :=
  (s.1, {| heap := heap s.2; trace := trace s.2; rng := g |}).

(** The instance after a fit that saw no entity type. *)
Definition degenerate m (types : list string) : TaggerModel :=
  {| class_name := class_name m; config := config m; _resources := _resources m;
     _clf := _clf m; _label_encoder := _label_encoder m;
     _current_params := _current_params m; _no_entities := true;
     types := Some types |}.

(** The instance after a fit that trained a classifier. *)
Definition trained m (types : list string) (clf : Clf) (enc : Encoder) (p : Params)
  : TaggerModel :=
  {| class_name := class_name m; config := config m; _resources := _resources m;
     _clf := Some clf; _label_encoder := Some enc;
     _current_params := Some p; _no_entities := _no_entities m;
     types := Some types |}.

Definition traced w (evs : list (Event)) : World :=
  {| heap := heap w; trace := trace w ++ evs; rng := rng w |}.

(** What an event may show of the training data. *)
Definition sees (examples : list Query) (labels : list Label) (e : Event) : Prop :=
  match e with
  | CallEncode l x => l = labels ∧ x = examples
  | CallExtractFeatures x _ _ => x = examples
  | _ => True
  end.

Definition prune_step (r : loc) (key : string) : M unit :=
  if bool_decide (key ∉ resources_to_persist) then delitem r key else ret ().

(** The instance [TaggerModel(cfg)] builds, with its resource cache at [r]. *)
Definition constructed (cfg : ModelConfig) (r : loc) : TaggerModel :=
  {| class_name := "TaggerModel";
     config := if no_features cfg then with_features cfg DEFAULT_FEATURES else cfg;
     _resources := r; _clf := None; _label_encoder := None; _current_params := None;
     _no_entities := false; types := None |}.

(** [needle in hay] on strings. *)
Definition contains (needle hay : string) : Prop :=
  ∃ pre post, hay = pre +:+ needle +:+ post.

(** Text that [repr] copies as it is: printable, no single quote, no
    backslash. *)
Fixpoint plain (s : string) : bool :=
  match s with
  | EmptyString => true
  | String c s' =>
      negb (Ascii.eqb c PyRepr.squote) && negb (Ascii.eqb c PyRepr.backslash)
      && PyRepr.printable (nat_of_ascii c) && plain s'
  end.

Definition answers {A} (r : string + A) : Prop := ∃ a, r = inr a.

(** Collaborators that never fail. *)
Definition collaborators_answer : Prop :=
  (∀ cls, answers (instantiate cls))
  ∧ (∀ clf cfg, answers (setup_model clf cfg))
  ∧ (∀ cfg, answers (get_label_encoder cfg))
  ∧ (∀ enc labels examples, answers (label_encode enc labels examples))
  ∧ (∀ clf examples cfg res y flag, answers (extract_features clf examples cfg res y flag))
  ∧ (∀ clf p, answers (set_params clf p))
  ∧ (∀ clf X y, answers (clf_fit clf X y))
  ∧ (∀ clf cfg X y groups, answers (_fit_cv clf cfg X y groups)).

Definition recognized (cfg : ModelConfig) : Prop :=
  model_settings cfg !! "classifier_type" = Some (VStr "memm")
  ∨ model_settings cfg !! "classifier_type" = Some (VStr "crf").

(** The cross-validated search was run. *)
Definition search_ran (evs : list (Event)) : Prop :=
  ∃ X y groups, CallFitCV X y groups ∈ evs.

(** The shuffle as a function of the numbers drawn: [draws] lists the
    results of the successive [randbelow] calls. *)
Definition exchange {A} (x : list A) (i j : nat) : list A :=
  match x !! j, x !! i with
  | Some xj, Some xi => <[j := xi]> (<[i := xj]> x)
  | _, _ => x
  end.

Fixpoint shuffle_with {A} (i : nat) (draws : list nat) (x : list A) : list A :=
  match i, draws with
  | S i', j :: draws' => shuffle_with i' draws' (exchange x (S i') j)
  | _, _ => x
  end.

(** Draws the loop can receive: the draw made at position [i] is below
    [i + 1]. *)
Fixpoint admissible (i : nat) (draws : list nat) : Prop :=
  match i, draws with
  | 0, [] => True
  | S i', j :: draws' => j ≤ S i' ∧ admissible i' draws'
  | _, _ => False
  end.

(** The numbers the random source yields to a loop started at [i]. *)
Fixpoint draws_of (i : nat) (g : RngState) : list nat :=
  match i with
  | 0 => []
  | S i' => (randbelow g (S i' + 1)).1 :: draws_of i' (randbelow g (S i' + 1)).2
  end.

Fixpoint rng_after (i : nat) (g : RngState) : RngState :=
  match i with
  | 0 => g
  | S i' => rng_after i' (randbelow g (S i' + 1)).2
  end.

(** The order [random.shuffle] makes of [range(n)] when the random source
    is [g]: the loop starts at position [n - 1]. *)
Definition drawn_order (n : nat) (g : RngState) : list nat :=
  shuffle_with (n - 1) (draws_of (n - 1) g) (seq 0 n).

(** ** The remaining method and the vocabulary of prediction and evaluation *)

(** [_convert_params]: sequence models take the grid as it is given. *)
Definition _convert_params (param_grid : gmap string PyVal) (y : Targets)
    (is_grid : bool) : M (gmap string PyVal) :=
  ret param_grid.

(** One turn of the comprehension of [predict]:
    [self._label_encoder.decode([tags], examples=[example])[0]]. *)
Definition decode_one (pair : Tags * Query) : M Label :=
  enc <- get_encoder ;;
  decoded <- call LabelEncoder (CallDecode [pair.1] [pair.2])
               (label_decode enc [pair.1] [pair.2]) ;;
  getitem decoded 0.

(** [l] is the first label the encoder of [m] decodes from the pair. *)
Definition decodes_to (m : TaggerModel) (pair : Tags * Query) (l : Label) : Prop :=
  ∃ enc decoded,
    _label_encoder m = Some enc
    ∧ label_decode enc [pair.1] [pair.2] = inr decoded
    ∧ decoded !! 0 = Some l.

Definition decode_calls (pairs : list (Tags * Query)) : list Event :=
  (λ pair, CallDecode [pair.1] [pair.2]) <$> pairs.

(** One turn of the comprehension of [evaluate]. *)
Definition evaluated (labels predictions : list Label) (label_type : string)
    (ie : nat * Query) : M EvaluatedExample :=
  expected <- getitem labels ie.1 ;;
  predicted <- getitem predictions ie.1 ;;
  ret {| ee_example := ie.2; ee_expected := expected; ee_predicted := predicted;
         ee_probas := None; ee_label_type := label_type |}.

(** The record of example [ie.2] at index [ie.1], when both lists reach it. *)
Definition record_at (labels predictions : list Label) (label_type : string)
    (ie : nat * Query) : option EvaluatedExample :=
  expected ← labels !! ie.1;
  predicted ← predictions !! ie.1;
  Some {| ee_example := ie.2; ee_expected := expected; ee_predicted := predicted;
          ee_probas := None; ee_label_type := label_type |}.

(** A call to the classifier's [set_params] or [fit]. *)
Definition is_training_call (e : Event) : bool :=
  match e with
  | CallSetParams _ | CallClfFit _ _ => true
  | _ => false
  end.

(** The message Python gives when [None] is unpacked as keyword arguments. *)
Definition not_a_mapping : string := "argument after ** must be a mapping, not NoneType".

(** The state [s] is the instance [m] in the world [w] with the events
    [evs] added to the trace. *)
Definition only_traced (s : State) (m : TaggerModel) (w : World) (evs : list Event)
  : Prop :=
  s.1 = m ∧ heap s.2 = heap w ∧ rng s.2 = rng w ∧ trace s.2 = trace w ++ evs.

(** What [fit] may raise once the lists are shuffled: the error of the
    classifier selection, the [TypeError] of unpacking [None], or whatever a
    collaborator raised. *)
Definition fit_error (m : TaggerModel) (w : World) (e : Exn) : Prop :=
  (_get_model_constructor (m, w)).1 = Raise e
  ∨ e = TypeError not_a_mapping
  ∨ ∃ who msg, e = CollaboratorError who msg.

End Tagger.

Arguments World : clear implicits.
Arguments TaggerModel : clear implicits.
Arguments Model : clear implicits.
Arguments Event : clear implicits.

(** ** A concrete set of collaborators

    Queries are their text; a classifier object is the list of the calls it
    has received; the encoder turns a label into its entity types; the
    random source is a counter.  None of them ever fails. *)

Module Demo.

#[export] Instance collaborators : Collaborators := {|
  Query := string;
  Resource := nat;
  Clf := list string;
  Encoder := unit;
  Tags := list string;
  Encoded := list (list string);
  FeatureMatrix := list string;
  Targets := list (list string);
  Groups := list nat;
  RngState := nat;
  randbelow := λ g n, (g mod n, S g);
  randbelow_lt := λ g n Hn, Nat.mod_upper_bound g n (proj2 (Nat.neq_0_lt_0 n) Hn);
  instantiate := λ cls,
    inr [match cls with MemmModel => "memm" | ConditionalRandomFields => "crf" end];
  setup_model := λ clf _, inr (clf ++ ["setup_model"]);
  extract_features := λ clf examples _ _ y _,
    inr (examples, y, seq 0 (length examples), clf ++ ["extract_features"]);
  set_params := λ clf _, inr (clf ++ ["set_params"]);
  clf_fit := λ clf _ _, inr (clf ++ ["fit"]);
  extract_and_predict := λ _ examples _ _, inr (List.map (λ q, [q]) examples);
  get_label_encoder := λ _, inr ();
  label_encode := λ _ labels _,
    inr (List.map (λ l : Label, List.map (λ e, type (entity e)) l) labels);
  label_decode := λ _ tags _,
    inr (List.map
           (List.map (λ t, {| entity := {| type := t; text := t |}; span := (0, 0) |}))
           tags);
  _fit_cv := λ _ _ _ _ _, inr {["C" := VInt 100]}
|}.

Definition world0 : World collaborators := {| heap := ∅; trace := []; rng := 0 |}.

Definition cfg (classifier_type : string) : ModelConfig :=
  {| features := Some ∅;
     model_settings := {["classifier_type" := VStr classifier_type]};
     params := Some {["C" := VInt 1]};
     param_selection := None;
     label_type := "entities" |}.

Definition ent (t : string) : QueryEntity :=
  {| entity := {| type := t; text := "x" |}; span := (0, 1) |}.

End Demo.

Definition searching_cfg : ModelConfig :=
  {| features := Some ∅;
     model_settings := {["classifier_type" := VStr "crf"]};
     params := None;
     param_selection := Some (VDict [(VStr "type", VStr "k-fold"); (VStr "k", VInt 5)]);
     label_type := "entities" |}.

Definition model (classifier_type : string) : TaggerModel Demo.collaborators :=
  constructed (Demo.cfg classifier_type) 1%positive.

(** A configuration with no parameters and no selection policy. *)
Definition paramless_cfg : ModelConfig :=
  {| features := Some ∅;
     model_settings := {["classifier_type" := VStr "memm"]};
     params := None;
     param_selection := None;
     label_type := "entities" |}.

(** The state after a first training of [model "memm"]. *)
Definition fitted : TaggerModel Demo.collaborators * World Demo.collaborators :=
  (fit (C := Demo.collaborators) ["find a cafe"; "hello"] [ [Demo.ent "place"]; [] ] None
     (model "memm", Demo.world0)).2.

(** * Properties *)

Section Properties.

Context `{C : Collaborators}.

Implicit Types (m : TaggerModel C) (w : World C) (s : State).

(** Unfolding the statements of [fit_shuffled] down to the collaborators'
    answers. *)
Tactic Notation "unfold_methods" :=
  unfold _fit, get_clf;
  unfold bind, call, emit, ret, raise, set_clf, set_label_encoder, set_current_params,
    set_no_entities, set_types, modify_self, get_self, read_dict.
Tactic Notation "unfold_methods" "in" hyp(H) :=
  unfold _fit, get_clf in H;
  unfold bind, call, emit, ret, raise, set_clf, set_label_encoder, set_current_params,
    set_no_entities, set_types, modify_self, get_self, read_dict in H.

Ltac case_answers_in H :=
  repeat match type of H with
         | context [match ?r with inl _ => _ | inr _ => _ end] =>
             destruct r eqn:?; cbn in H
         | context [let '(_, _) := ?r in _] =>
             destruct r eqn:?; cbn in H
         end.

Lemma with_rng_same m w : with_rng (m, w) (rng w) = (m, w).
Proof. by destruct w. Qed.

Lemma with_rng_twice s g g' : with_rng (with_rng s g) g' = with_rng s g'.
Proof. done. Qed.

(** ** Subscripts and comprehensions *)

Lemma getitem_Some {A} (l : list A) i a s :
  l !! i = Some a → getitem l i s = (Return a, s).
Proof. intros H. unfold getitem. by rewrite H. Qed.

Lemma getitem_None {A} (l : list A) i s :
  l !! i = None → getitem l i s = (Raise IndexError, s).
Proof. intros H. unfold getitem. by rewrite H. Qed.

Lemma traverse_getitem_Some {A} (l : list A) (idx : list nat) s :
  Forall (λ i, i < length l) idx →
  ∃ l', traverse (getitem l) idx s = (Return l', s)
        ∧ Forall2 (λ i a, l !! i = Some a) idx l'.
Proof.
  induction 1 as [|i idx Hi _ (l' & Hrun & Hall)].
  - by exists [].
  - destruct (lookup_lt_is_Some_2 l i Hi) as [a Ha].
    exists (a :: l'). split; [|by constructor].
    cbn. unfold bind. by rewrite (getitem_Some _ _ _ _ Ha), Hrun.
Qed.

Lemma traverse_getitem_fail {A} (l : list A) (idx : list nat) s :
  Exists (λ i, length l ≤ i) idx →
  traverse (getitem l) idx s = (Raise IndexError, s).
Proof.
  induction idx as [|i idx IH]; intros Hex; [by inversion Hex|].
  cbn. unfold bind.
  destruct (l !! i) as [a|] eqn:Hi.
  - rewrite (getitem_Some _ _ _ _ Hi).
    rewrite IH; [done|].
    inversion Hex as [?? Hle|]; subst; [|done].
    apply lookup_lt_Some in Hi. lia.
  - by rewrite (getitem_None _ _ _ Hi).
Qed.

(** Picking the elements of [l] at the indices of a permutation of
    [range(len(l))] gives a permutation of [l]. *)
Lemma picked_all {A} (l l' : list A) :
  Forall2 (λ i a, l !! i = Some a) (seq 0 (length l)) l' → l' = l.
Proof.
  intros H. apply list_eq. intros i.
  destruct (decide (i < length l)) as [Hlt|Hge].
  - destruct (Forall2_lookup_l _ _ _ i i H) as (a & Ha & Hl).
    { by apply lookup_seq_lt. }
    by rewrite Ha, Hl.
  - rewrite (lookup_ge_None_2 l) by lia.
    apply lookup_ge_None_2.
    rewrite <-(Forall2_length _ _ _ H), length_seq. lia.
Qed.

Lemma picked_fmap {A} (l : list A) idx l' :
  Forall2 (λ i a, l !! i = Some a) idx l' → Some <$> l' = (l !!.) <$> idx.
Proof. induction 1 as [|???? Hi]; [done|]. cbn. by f_equal. Qed.

Lemma fmap_lookup_seq {A} (l : list A) :
  (l !!.) <$> seq 0 (length l) = Some <$> l.
Proof.
  apply list_eq. intros i. rewrite !list_lookup_fmap.
  destruct (decide (i < length l)) as [Hlt|Hge].
  - rewrite lookup_seq_lt by done. cbn.
    by destruct (lookup_lt_is_Some_2 l i Hlt) as [a ->].
  - rewrite lookup_seq_ge by lia. by rewrite lookup_ge_None_2 by lia.
Qed.

Lemma picked_Permutation {A} (l : list A) idx l' :
  idx ≡ₚ seq 0 (length l) →
  Forall2 (λ i a, l !! i = Some a) idx l' →
  l' ≡ₚ l.
Proof.
  intros Hperm Hpick.
  assert (Some <$> l' ≡ₚ Some <$> l) as Hopt.
  { rewrite (picked_fmap _ _ _ Hpick), Hperm. by rewrite fmap_lookup_seq. }
  symmetry in Hopt.
  apply Permutation_map_inv in Hopt as (l3 & Heq & Hl3).
  apply (inj (fmap Some)) in Heq. subst l3. done.
Qed.

(** ** The shuffle *)

Lemma draw_spec n s :
  draw n s = (Return (randbelow (rng s.2) n).1, with_rng s (randbelow (rng s.2) n).2).
Proof. unfold draw, with_rng. by destruct (randbelow (rng s.2) n). Qed.

(** Exchanging two positions of a list permutes it. *)
Lemma exchange_Permutation {A} (x : list A) i j xi xj :
  x !! i = Some xi → x !! j = Some xj →
  <[j := xi]> (<[i := xj]> x) ≡ₚ x.
Proof.
  intros Hi Hj.
  pose proof (lookup_lt_Some _ _ _ Hi) as Hil.
  pose proof (lookup_lt_Some _ _ _ Hj) as Hjl.
  apply Permutation_inj. split; [by rewrite !length_insert|].
  exists (λ k, if decide (k = i) then j else if decide (k = j) then i else k).
  split.
  - intros a b Hab. cbn in Hab.
    destruct (decide (a = i)), (decide (b = i)), (decide (a = j)), (decide (b = j));
      congruence.
  - intros k. destruct (decide (k = j)) as [->|Hkj].
    + rewrite list_lookup_insert_eq by (by rewrite length_insert).
      destruct (decide (j = i)) as [->|Hji]; [congruence|].
      destruct (decide (j = j)); congruence.
    + rewrite list_lookup_insert_ne by done.
      destruct (decide (k = i)) as [->|Hki].
      * rewrite list_lookup_insert_eq by done. destruct (decide (i = i)); congruence.
      * rewrite list_lookup_insert_ne by done.
        destruct (decide (k = i)), (decide (k = j)); congruence.
Qed.

Lemma swap_spec (x : list nat) i j s :
  i < length x → j < length x →
  ∃ x', swap x i j s = (Return x', s) ∧ x' ≡ₚ x.
Proof.
  intros Hi Hj.
  destruct (lookup_lt_is_Some_2 x i Hi) as [xi Hxi].
  destruct (lookup_lt_is_Some_2 x j Hj) as [xj Hxj].
  exists (<[j := xi]> (<[i := xj]> x)). split.
  - unfold swap, bind.
    by rewrite (getitem_Some _ _ _ _ Hxj), (getitem_Some _ _ _ _ Hxi).
  - by apply exchange_Permutation.
Qed.

Lemma shuffle_from_spec i (x : list nat) s :
  i < length x →
  ∃ x' g, shuffle_from i x s = (Return x', with_rng s g) ∧ x' ≡ₚ x.
Proof.
  revert x s. induction i as [|i IH]; intros x s Hi.
  - exists x, (rng s.2). split; [|done]. destruct s as [m w]. by rewrite with_rng_same.
  - cbn [shuffle_from]. unfold bind at 1. rewrite draw_spec.
    set (d := randbelow (rng s.2) (S i + 1)).
    assert (d.1 < S i + 1) as Hd by (apply randbelow_lt; lia).
    destruct (swap_spec x (S i) d.1 (with_rng s d.2)) as (x1 & Hswap & Hperm1);
      [done|lia|].
    unfold bind. rewrite Hswap.
    destruct (IH x1 (with_rng s d.2)) as (x' & g & Hrun & Hperm).
    { rewrite (Permutation_length Hperm1). lia. }
    exists x', g. split; [by rewrite Hrun|]. by rewrite Hperm.
Qed.

(** [random.shuffle] always ends, leaves the list a permutation of what it
    was, and touches nothing but the random source. *)
Lemma shuffle_spec (x : list nat) s :
  ∃ x' g, shuffle x s = (Return x', with_rng s g) ∧ x' ≡ₚ x.
Proof.
  unfold shuffle. destruct x as [|a x].
  - exists [], (rng s.2). split; [|done]. destruct s as [m w]. cbn. unfold ret.
    by rewrite with_rng_same.
  - apply shuffle_from_spec. cbn. lia.
Qed.

(** ** Entering [fit]: the joint shuffle *)

Lemma picked_zip {A B} (l1 : list A) (l2 : list B) idx l1' l2' :
  Forall2 (λ i a, l1 !! i = Some a) idx l1' →
  Forall2 (λ i b, l2 !! i = Some b) idx l2' →
  Forall2 (λ i p, zip l1 l2 !! i = Some p) idx (zip l1' l2').
Proof.
  intros H1. revert l2'.
  induction H1 as [|i a idx l1' Ha _ IH]; intros l2' H2; inversion H2 as [|?b ?? Hb]; subst.
  - constructor.
  - cbn. constructor; [by apply lookup_zip_Some|by apply IH].
Qed.

Lemma fit_enters_shuffled examples labels params m w :
  length labels ≤ length examples →
  ∃ idx g examples' labels',
    idx ≡ₚ seq 0 (length labels)
    ∧ Forall2 (λ i a, examples !! i = Some a) idx examples'
    ∧ Forall2 (λ i a, labels !! i = Some a) idx labels'
    ∧ fit examples labels params (m, w)
      = fit_shuffled (skip_param_selection params m) (py_or params (config_params m))
          examples' labels' (with_rng (m, w) g).
Proof.
  intros Hlen.
  destruct (shuffle_spec (seq 0 (length labels)) (m, w)) as (idx & g & Hsh & Hperm).
  assert (Forall (λ i, i < length labels) idx) as Hlt.
  { rewrite Hperm. apply Forall_forall. intros i Hi.
    apply elem_of_seq in Hi. lia. }
  destruct (traverse_getitem_Some examples idx (with_rng (m, w) g)) as (ex' & Hex & Hpe).
  { eapply Forall_impl; [exact Hlt|]. cbn. intros. lia. }
  destruct (traverse_getitem_Some labels idx (with_rng (m, w) g)) as (lb' & Hlb & Hpl);
    [done|].
  exists idx, g, ex', lb'. repeat split; try done.
  unfold fit. unfold bind at 1. cbn [get_self fst].
  unfold bind at 1. rewrite Hsh.
  unfold bind at 1. rewrite Hex.
  unfold bind at 1. rewrite Hlb. done.
Qed.

Lemma fit_IndexError examples labels params m w :
  length examples < length labels →
  ∃ g, fit examples labels params (m, w) = (Raise IndexError, with_rng (m, w) g).
Proof.
  intros Hlen.
  destruct (shuffle_spec (seq 0 (length labels)) (m, w)) as (idx & g & Hsh & Hperm).
  exists g.
  unfold fit. unfold bind at 1. cbn [get_self fst].
  unfold bind at 1. rewrite Hsh.
  unfold bind at 1. rewrite traverse_getitem_fail; [done|].
  apply Exists_exists. exists (length examples). split; [|done].
  rewrite Hperm. apply elem_of_seq. lia.
Qed.

Lemma entity_types_Permutation (l1 l2 : list Label) :
  l1 ≡ₚ l2 → entity_types l1 ≡ₚ entity_types l2.
Proof. intros H. unfold entity_types. by rewrite H. Qed.

Lemma no_types_iff (types : list string) :
  size (list_to_set types : gset string) = 0 ↔ types = [].
Proof.
  split.
  - intros Hsz. apply size_empty_inv in Hsz.
    destruct types as [|t ts]; [done|].
    exfalso. apply (not_elem_of_empty (C:=gset string) t).
    rewrite <-Hsz. apply elem_of_list_to_set. by left.
  - intros ->. done.
Qed.

(** ** Classifier selection *)

(** The answer of [_get_model_constructor] for a class name and a
    configuration; the method reads nothing else and changes nothing. *)
Lemma get_model_constructor_state s :
  (_get_model_constructor s).2 = s.
Proof.
  unfold _get_model_constructor, bind, get_self. cbn.
  repeat case_match; done.
Qed.

Lemma get_model_constructor_frame m m' w w' :
  class_name m = class_name m' → config m = config m' →
  _get_model_constructor (m, w)
  = ((_get_model_constructor (m', w')).1, (m, w)).
Proof.
  intros Hn Hc.
  unfold _get_model_constructor, bind, get_self. cbn. rewrite Hn, Hc.
  repeat case_match; done.
Qed.

(** ** What [fit] does after the shuffle *)

Lemma fit_shuffled_degenerate skip params examples labels m w :
  entity_types labels = [] →
  fit_shuffled skip params examples labels (m, w)
  = (Return (degenerate m []), (degenerate m [], traced w [LogWarning no_fit_warning])).
Proof.
  intros Hty. unfold fit_shuffled. rewrite Hty.
  rewrite bool_decide_eq_true_2 by done. done.
Qed.

Lemma fit_shuffled_Return skip params examples labels m w r s' :
  entity_types labels ≠ [] →
  fit_shuffled skip params examples labels (m, w) = (Return r, s') →
  ∃ cls clf0 clf1 enc y0 X y groups clf2 p clf3 clf4,
    _get_model_constructor (m, w) = (Return cls, (m, w))
    ∧ instantiate cls = inr clf0
    ∧ setup_model clf0 (config m) = inr clf1
    ∧ get_label_encoder (config m) = inr enc
    ∧ label_encode enc labels examples = inr y0
    ∧ extract_features clf1 examples (config m) (heap w !!! _resources m) y0 true
      = inr (X, y, groups, clf2)
    ∧ (if skip then params = Some p else _fit_cv clf2 (config m) X y groups = inr p)
    ∧ set_params clf2 p = inr clf3
    ∧ clf_fit clf3 X y = inr clf4
    ∧ r = trained m (entity_types labels) clf4 enc p
    ∧ s' = (trained m (entity_types labels) clf4 enc p,
            traced w ([CallInstantiate cls; CallSetupModel (config m);
                       CallGetLabelEncoder (config m); CallEncode labels examples;
                       CallExtractFeatures examples y0 true]
                      ++ (if skip then [] else [CallFitCV X y groups])
                      ++ [CallSetParams p; CallClfFit X y])).
Proof.
  intros Hty Hrun. unfold fit_shuffled in Hrun.
  rewrite bool_decide_eq_false_2 in Hrun by (by rewrite no_types_iff).
  unfold bind at 1 in Hrun. cbn [set_types modify_self fst snd] in Hrun.
  unfold bind at 1 in Hrun.
  rewrite (get_model_constructor_frame _ m _ w) in Hrun by done.
  destruct (_get_model_constructor (m, w)).1 as [cls|e] eqn:Hctor; [|done].
  unfold_methods in Hrun.
  destruct skip, params as [p|]; cbn in Hrun; case_answers_in Hrun; try discriminate.
  all: inversion Hrun; subst; clear Hrun.
  all: try (rewrite <-!app_assoc; cbn [app]).
  all: try (rewrite (surjective_pairing (_get_model_constructor (m, w))),
              get_model_constructor_state, Hctor).
  all: do 12 eexists; repeat split; first [eassumption | reflexivity].
Qed.

Lemma fit_shuffled_selection_fails skip params examples labels m w e :
  entity_types labels ≠ [] →
  (_get_model_constructor (m, w)).1 = Raise e →
  fit_shuffled skip params examples labels (m, w)
  = (Raise e,
     ({| class_name := class_name m; config := config m; _resources := _resources m;
         _clf := _clf m; _label_encoder := _label_encoder m;
         _current_params := _current_params m; _no_entities := _no_entities m;
         types := Some (entity_types labels) |}, w)).
Proof.
  intros Hty Hctor. unfold fit_shuffled.
  rewrite bool_decide_eq_false_2 by (by rewrite no_types_iff).
  unfold bind at 1. cbn [set_types modify_self fst snd].
  unfold bind at 1.
  rewrite (get_model_constructor_frame _ m _ w) by done.
  by rewrite Hctor.
Qed.

Lemma fit_shuffled_run (skip : bool) (params : option Params) examples labels m w
    cls clf0 clf1 enc y0 X y groups clf2 p clf3 clf4 :
  entity_types labels ≠ [] →
  (_get_model_constructor (m, w)).1 = Return cls →
  instantiate cls = inr clf0 →
  setup_model clf0 (config m) = inr clf1 →
  get_label_encoder (config m) = inr enc →
  label_encode enc labels examples = inr y0 →
  extract_features clf1 examples (config m) (heap w !!! _resources m) y0 true
    = inr (X, y, groups, clf2) →
  (if skip then params = Some p else _fit_cv clf2 (config m) X y groups = inr p) →
  set_params clf2 p = inr clf3 →
  clf_fit clf3 X y = inr clf4 →
  fit_shuffled skip params examples labels (m, w)
  = (Return (trained m (entity_types labels) clf4 enc p),
     (trained m (entity_types labels) clf4 enc p,
      traced w ([CallInstantiate cls; CallSetupModel (config m);
                 CallGetLabelEncoder (config m); CallEncode labels examples;
                 CallExtractFeatures examples y0 true]
                ++ (if skip then [] else [CallFitCV X y groups])
                ++ [CallSetParams p; CallClfFit X y]))).
Proof.
  intros Hty Hctor H0 H1 Henc Hy0 HX Hp H3 H4. unfold fit_shuffled.
  rewrite bool_decide_eq_false_2 by (by rewrite no_types_iff).
  unfold bind at 1. cbn [set_types modify_self fst snd].
  unfold bind at 1.
  rewrite (get_model_constructor_frame _ m _ w) by done.
  rewrite Hctor. unfold_methods. cbn.
  rewrite H0. cbn. rewrite H1. cbn. rewrite Henc. cbn. rewrite Hy0. cbn.
  rewrite HX. cbn.
  destruct skip; [subst params|rewrite Hp]; cbn; rewrite H3; cbn; rewrite H4; cbn;
    unfold trained, traced; rewrite <-!app_assoc; done.
Qed.

(** What no run of [fit_shuffled] touches, whether it returns or raises. *)
Lemma fit_shuffled_frame skip params examples labels m w :
  let out := fit_shuffled skip params examples labels (m, w) in
  class_name out.2.1 = class_name m
  ∧ config out.2.1 = config m
  ∧ _resources out.2.1 = _resources m
  ∧ (_no_entities m = true → _no_entities out.2.1 = true)
  ∧ heap out.2.2 = heap w
  ∧ rng out.2.2 = rng w
  ∧ ∃ evs, trace out.2.2 = trace w ++ evs ∧ Forall (sees examples labels) evs.
Proof.
  destruct (decide (entity_types labels = [])) as [Hty|Hty].
  { rewrite fit_shuffled_degenerate by done. cbn.
    repeat split; try done. eexists. split; [done|]. by repeat constructor. }
  destruct (_get_model_constructor (m, w)).1 as [cls|e] eqn:Hctor.
  2:{ rewrite (fit_shuffled_selection_fails _ _ _ _ _ _ e) by done. cbn.
      repeat split; try done. exists []. by rewrite app_nil_r. }
  intros out. remember out as o eqn:Hout. subst out.
  unfold fit_shuffled in Hout.
  rewrite bool_decide_eq_false_2 in Hout by (by rewrite no_types_iff).
  unfold bind at 1 in Hout. cbn [set_types modify_self fst snd] in Hout.
  unfold bind at 1 in Hout.
  rewrite (get_model_constructor_frame _ m _ w) in Hout by done.
  rewrite Hctor in Hout. unfold_methods in Hout.
  destruct skip, params as [p|]; cbn in Hout; case_answers_in Hout.
  all: subst o; cbn.
  all: repeat split; try done.
  all: rewrite <-?app_assoc; eexists; (split; [reflexivity|]).
  all: by repeat constructor.
Qed.

(** ** The pruning loop of [__getstate__] *)

Lemma prune_loop (r : loc) (keys : list string) m w :
  NoDup keys →
  (∀ k, k ∈ keys → is_Some ((heap w !!! r) !! k)) →
  ∃ w', for_each (prune_step r) keys (m, w) = (Return (), (m, w'))
        ∧ trace w' = trace w
        ∧ rng w' = rng w
        ∧ (∀ r', r' ≠ r → heap w' !! r' = heap w !! r')
        ∧ (∀ k, (heap w' !!! r) !! k
                = if decide (k ∈ keys ∧ k ∉ resources_to_persist) then None
                  else (heap w !!! r) !! k).
Proof.
  intros Hnd. revert w.
  induction Hnd as [|k0 keys Hk0 Hnd IH]; intros w Hin.
  - exists w. repeat split; try done.
    all: intros k; case_decide as Hk; [|done].
    all: destruct Hk as [Hk _]; by apply elem_of_nil in Hk.
  - cbn [for_each]. unfold bind at 1. unfold prune_step at 1.
    destruct (Hin k0) as [v Hv]; [by left|].
    case_bool_decide as Hp.
    + (* the key goes *)
      unfold delitem, bind, read_dict, write_dict. cbn [fst snd]. rewrite Hv.
      set (w1 := {| heap := <[r := delete k0 (heap w !!! r)]> (heap w);
                    trace := trace w; rng := rng w |}).
      destruct (IH w1) as (w' & Hrun & Htr & Hrng & Hother & Hkeys).
      { intros k Hk. cbn. rewrite lookup_total_insert_eq.
        rewrite lookup_delete_ne by (intros ->; done).
        apply Hin. by right. }
      exists w'. split; [exact Hrun|]. repeat split; try done.
      * intros r' Hr'. rewrite (Hother r' Hr'). cbn. by rewrite lookup_insert_ne.
      * intros k. rewrite Hkeys. cbn. rewrite lookup_total_insert_eq.
        destruct (decide (k = k0)) as [->|Hne].
        -- rewrite lookup_delete_eq.
           rewrite (decide_True (P := k0 ∈ k0 :: keys ∧ _)) by (split; [by left|done]).
           by case_decide.
        -- rewrite lookup_delete_ne by done.
           apply decide_ext. rewrite elem_of_cons. intuition congruence.
    + (* the key stays *)
      cbn.
      destruct (IH w) as (w' & Hrun & Htr & Hrng & Hother & Hkeys).
      { intros k Hk. apply Hin. by right. }
      exists w'. split; [exact Hrun|]. repeat split; try done.
      intros k. rewrite Hkeys. apply decide_ext. rewrite elem_of_cons.
      split; [intuition|]. intros [[->|?] ?]; [done|by split].
Qed.

Lemma getstate_spec m w :
  ∃ w', __getstate__ (m, w) = (Return m, (m, w'))
        ∧ trace w' = trace w
        ∧ rng w' = rng w
        ∧ (∀ r', r' ≠ _resources m → heap w' !! r' = heap w !! r')
        ∧ (∀ k, (heap w' !!! _resources m) !! k
                = if decide (k ∈ resources_to_persist)
                  then (heap w !!! _resources m) !! k else None).
Proof.
  destruct (prune_loop (_resources m) (map_to_list (heap w !!! _resources m)).*1 m w)
    as (w' & Hrun & Htr & Hrng & Hother & Hkeys).
  { apply NoDup_fst_map_to_list. }
  { intros k Hk. apply list_elem_of_fmap in Hk as ([k' v] & -> & Hkv).
    apply elem_of_map_to_list in Hkv. by exists v. }
  exists w'. split; [|repeat split; try done].
  - unfold __getstate__. unfold bind at 1. cbn [get_self fst].
    unfold bind at 1. cbn [read_dict fst snd].
    unfold bind at 1. fold (prune_step (_resources m)).
    by rewrite Hrun.
  - intros k. rewrite Hkeys.
    destruct (decide (k ∈ resources_to_persist)) as [Hp|Hp].
    + rewrite decide_False by (by intros [_ ?]). done.
    + destruct ((heap w !!! _resources m) !! k) as [v|] eqn:Hk; [|by case_decide].
      rewrite decide_True; [done|]. split; [|done].
      apply list_elem_of_fmap. exists (k, v). split; [done|].
      by apply elem_of_map_to_list.
Qed.

(** * The claims *)

(** C1. On an instance whose [_no_entities] flag is set, [predict] returns
    the one-element list [[()]] whatever the examples are and changes
    nothing, and [evaluate] logs a warning and returns [None]: no collaborator
    is called and no report is built. *)
Theorem degenerate_predict_evaluate m w (examples : list Query) (labels : list Label) :
  _no_entities m = true →
  predict examples (m, w) = (Return [ [] ], (m, w))
  ∧ evaluate examples labels (m, w)
    = (Return None, (m, traced w [LogWarning no_eval_warning])).
Proof.
  intros Hflag. split.
  - unfold predict, bind, get_self. cbn. by rewrite Hflag.
  - unfold evaluate, bind, get_self. cbn. by rewrite Hflag.
Qed.

(** C4. When the labels carry no entity type at all, [fit] sets
    [_no_entities], logs one warning, calls no collaborator (so no classifier
    and no label encoder is built: [_clf], [_label_encoder] and
    [_current_params] are what they were) and returns the instance. *)
Theorem fit_without_entity_types m w (examples : list Query) (labels : list Label)
    (params : option Params) :
  list_to_set (entity_types labels) = (∅ : gset string) →
  length labels ≤ length examples →
  ∃ g,
    fit examples labels params (m, w)
    = (Return (degenerate m []),
       (degenerate m [], traced (with_rng (m, w) g).2 [LogWarning no_fit_warning]))
    ∧ _no_entities (degenerate m []) = true
    ∧ _clf (degenerate m []) = _clf m
    ∧ _label_encoder (degenerate m []) = _label_encoder m
    ∧ _current_params (degenerate m []) = _current_params m.
Proof.
  intros Hset Hlen.
  assert (entity_types labels = []) as Hty.
  { apply no_types_iff. by rewrite Hset. }
  destruct (fit_enters_shuffled examples labels params m w Hlen)
    as (idx & g & ex' & lb' & Hperm & Hex & Hlb & Hfit).
  exists g. rewrite Hfit. split; [|done].
  apply fit_shuffled_degenerate.
  apply Permutation_nil_r. rewrite <-Hty.
  apply entity_types_Permutation.
  apply (picked_Permutation labels idx lb'); done.
Qed.


(** C7. [__getstate__] always returns; the state it returns has the
    [config], [_clf], [_label_encoder], [_current_params] and [_no_entities]
    of the instance, and the resource dictionary it refers to holds the
    entry of ['sys_types'] as it was and no other key. *)
Theorem getstate_keeps_allow_listed_resources m w :
  ∃ attributes w',
    __getstate__ (m, w) = (Return attributes, (m, w'))
    ∧ config attributes = config m
    ∧ _clf attributes = _clf m
    ∧ _label_encoder attributes = _label_encoder m
    ∧ _current_params attributes = _current_params m
    ∧ _no_entities attributes = _no_entities m
    ∧ (heap w' !!! _resources attributes) !! "sys_types"
      = (heap w !!! _resources m) !! "sys_types"
    ∧ ∀ key, key ≠ "sys_types" → (heap w' !!! _resources attributes) !! key = None.
Proof.
  destruct (getstate_spec m w) as (w' & Hrun & _ & _ & _ & Hkeys).
  exists m, w'. split; [exact Hrun|]. do 5 (split; [reflexivity|]). split.
  - rewrite Hkeys. rewrite decide_True; [done|]. by apply elem_of_singleton.
  - intros key Hkey. rewrite Hkeys. rewrite decide_False; [done|].
    unfold resources_to_persist. by rewrite elem_of_singleton.
Qed.

(** C10. The copy made by [__getstate__] is shallow: the returned state and
    the live instance refer to the same resource dictionary, so after the
    call the instance's own [_resources] has lost every key that is not
    ['sys_types'] and holds at most that key. *)
Theorem getstate_prunes_live_resources m w :
  ∃ attributes w',
    __getstate__ (m, w) = (Return attributes, (m, w'))
    ∧ _resources attributes = _resources m
    ∧ dom (heap w' !!! _resources m) ⊆ ({["sys_types"]} : gset string)
    ∧ ∀ key, key ≠ "sys_types" →
             is_Some ((heap w !!! _resources m) !! key) →
             (heap w' !!! _resources m) !! key = None.
Proof.
  destruct (getstate_spec m w) as (w' & Hrun & _ & _ & _ & Hkeys).
  exists m, w'. split; [exact Hrun|]. split; [done|]. split.
  - intros key Hkey. apply elem_of_dom in Hkey as [v Hv].
    rewrite Hkeys in Hv. case_decide as Hp; [|done].
    exact Hp.
  - intros key Hkey _. rewrite Hkeys. rewrite decide_False; [done|].
    unfold resources_to_persist. by rewrite elem_of_singleton.
Qed.

(** ** Error messages *)

Lemma append_nil (txt : string) : "" +:+ txt = txt.
Proof. reflexivity. Qed.

Lemma append_cons c (s1 s2 : string) : String c s1 +:+ s2 = String c (s1 +:+ s2).
Proof. reflexivity. Qed.

Lemma append_assoc (s1 s2 s3 : string) : (s1 +:+ s2) +:+ s3 = s1 +:+ s2 +:+ s3.
Proof.
  induction s1 as [|c s1 IH]; [done|].
  by rewrite !append_cons, IH.
Qed.

Lemma plain_no_squote (txt : string) :
  plain txt = true → PyRepr.has_char PyRepr.squote txt = false.
Proof.
  induction txt as [|c txt IH]; [done|]. cbn [plain PyRepr.has_char].
  rewrite !andb_true_iff, !negb_true_iff. intros [[[Hq _] _] Hs].
  rewrite Ascii.eqb_sym, Hq. cbn. by apply IH.
Qed.

Lemma repr_char_plain c :
  Ascii.eqb c PyRepr.squote = false → Ascii.eqb c PyRepr.backslash = false →
  PyRepr.printable (nat_of_ascii c) = true →
  PyRepr.repr_char PyRepr.squote c = String c "".
Proof.
  intros Hq Hb Hp. unfold PyRepr.repr_char. rewrite Hq, Hb. cbn [orb].
  unfold PyRepr.printable in Hp.
  destruct (nat_of_ascii c <? 32) eqn:H32; [done|].
  apply Nat.ltb_ge in H32.
  rewrite !(proj2 (Nat.eqb_neq _ _)) by lia.
  unfold PyRepr.printable. rewrite (proj2 (Nat.ltb_ge _ _) H32). by rewrite Hp.
Qed.

Lemma repr_body_plain (txt : string) :
  plain txt = true → PyRepr.repr_body PyRepr.squote txt = txt.
Proof.
  induction txt as [|c txt IH]; [done|]. cbn [plain PyRepr.repr_body].
  rewrite !andb_true_iff, !negb_true_iff. intros [[[Hq Hb] Hp] Hs].
  rewrite repr_char_plain by done. by rewrite append_cons, append_nil, IH.
Qed.

(** [repr] of plain text is the text between single quotes. *)
Lemma repr_plain (txt : string) :
  plain txt = true →
  PyRepr.repr (VStr txt) = String PyRepr.squote (txt +:+ String PyRepr.squote "").
Proof.
  intros Hs. cbn [PyRepr.repr]. unfold PyRepr.repr_str, PyRepr.pick_quote.
  rewrite (plain_no_squote txt Hs). cbn [andb]. by rewrite repr_body_plain.
Qed.

Lemma not_recognized_contains_class cls v : contains cls (not_recognized cls v).
Proof. exists "", (": Classifier type " +:+ PyRepr.repr v +:+ " not recognized"). done. Qed.

Lemma not_recognized_contains_repr cls v : contains (PyRepr.repr v) (not_recognized cls v).
Proof.
  exists (cls +:+ ": Classifier type "), " not recognized".
  unfold not_recognized. by rewrite append_assoc.
Qed.

Lemma not_recognized_contains_text cls (txt : string) :
  plain txt = true → contains txt (not_recognized cls (VStr txt)).
Proof.
  intros Hs.
  exists (cls +:+ ": Classifier type '"), "' not recognized".
  unfold not_recognized. rewrite (repr_plain txt Hs).
  rewrite append_assoc. f_equal.
  change ": Classifier type '" with (": Classifier type " +:+ String PyRepr.squote "").
  rewrite append_assoc. f_equal.
  rewrite !append_cons, append_nil. f_equal.
  by rewrite append_assoc.
Qed.

(** ** Selection by type tag *)

Lemma get_model_constructor_unknown m w (ct : string) :
  model_settings (config m) !! "classifier_type" = Some (VStr ct) →
  ct ≠ MEMM_TYPE → ct ≠ CRF_TYPE →
  _get_model_constructor (m, w)
  = (Raise (ValueError (not_recognized (class_name m) (VStr ct))), (m, w)).
Proof.
  intros Hct Hm Hc. unfold _get_model_constructor, bind, get_self. cbn.
  rewrite Hct. cbn.
  by rewrite (proj2 (String.eqb_neq _ _) Hm), (proj2 (String.eqb_neq _ _) Hc).
Qed.

Lemma get_model_constructor_Return m w cls s' :
  _get_model_constructor (m, w) = (Return cls, s') →
  (model_settings (config m) !! "classifier_type" = Some (VStr MEMM_TYPE) ∧ cls = MemmModel)
  ∨ (model_settings (config m) !! "classifier_type" = Some (VStr CRF_TYPE)
     ∧ cls = ConditionalRandomFields).
Proof.
  unfold _get_model_constructor, bind, get_self. cbn.
  destruct (model_settings (config m) !! "classifier_type") as [v|]; [|done].
  destruct v as [| | |tag| |]; cbn; try done.
  destruct (String.eqb_spec tag MEMM_TYPE) as [->|_].
  { intros [= <- _]. by left. }
  destruct (String.eqb_spec tag CRF_TYPE) as [->|_]; [|done].
  intros [= <- _]. by right.
Qed.

Lemma get_model_constructor_memm m w :
  model_settings (config m) !! "classifier_type" = Some (VStr "memm") →
  _get_model_constructor (m, w) = (Return MemmModel, (m, w)).
Proof. intros H. unfold _get_model_constructor, bind, get_self. cbn. by rewrite H. Qed.

Lemma get_model_constructor_crf m w :
  model_settings (config m) !! "classifier_type" = Some (VStr "crf") →
  _get_model_constructor (m, w) = (Return ConditionalRandomFields, (m, w)).
Proof. intros H. unfold _get_model_constructor, bind, get_self. cbn. by rewrite H. Qed.

Lemma picked_entity_types (labels labels' : list Label) idx :
  idx ≡ₚ seq 0 (length labels) →
  Forall2 (λ i a, labels !! i = Some a) idx labels' →
  entity_types labels' ≡ₚ entity_types labels.
Proof.
  intros Hperm Hpick. apply entity_types_Permutation.
  by apply (picked_Permutation labels idx labels').
Qed.

Lemma picked_entity_types_nil (labels labels' : list Label) idx :
  idx ≡ₚ seq 0 (length labels) →
  Forall2 (λ i a, labels !! i = Some a) idx labels' →
  entity_types labels' = [] ↔ entity_types labels = [].
Proof.
  intros Hperm Hpick.
  pose proof (picked_entity_types _ _ _ Hperm Hpick) as Hty.
  split; intros Hnil; rewrite Hnil in Hty.
  - by apply Permutation_nil_l in Hty.
  - by apply Permutation_nil_r in Hty.
Qed.

Lemma init_spec (cfg : ModelConfig) w :
  TaggerModel__init__ cfg w
  = (Return (constructed cfg (fresh (dom (heap w)))),
     {| heap := <[fresh (dom (heap w)) := ∅]> (heap w); trace := trace w; rng := rng w |}).
Proof. reflexivity. Qed.

(** C3. A configuration whose [classifier_type] is a string other than
    ["memm"] and ["crf"] can be used to construct a [TaggerModel]; the error
    comes from [_get_model_constructor], hence from a [fit] that reaches
    classifier selection (a [fit] without entity types returns before it);
    it is a [ValueError] whose message holds the class name and the [repr]
    of the offending value, and the value itself when it is plain text.  The
    tags ["memm"] and ["crf"] select [MemmModel] and
    [ConditionalRandomFields], and nothing else is ever selected. *)
Theorem unknown_classifier_type_raises_at_selection (cfg : ModelConfig) (ct : string) w :
  model_settings cfg !! "classifier_type" = Some (VStr ct) →
  ct ≠ MEMM_TYPE → ct ≠ CRF_TYPE →
  ∃ m w',
    TaggerModel__init__ cfg w = (Return m, w')
    ∧ model_settings (config m) = model_settings cfg
    ∧ let msg := not_recognized "TaggerModel" (VStr ct) in
      (∀ w1, _get_model_constructor (m, w1) = (Raise (ValueError msg), (m, w1)))
      ∧ (∀ (examples : list Query) (labels : list Label) (params : option Params) w1,
           length labels ≤ length examples → entity_types labels ≠ [] →
           ∃ s', fit examples labels params (m, w1) = (Raise (ValueError msg), s')
                 ∧ trace s'.2 = trace w1 ∧ _clf s'.1 = None)
      ∧ (∀ (examples : list Query) (labels : list Label) (params : option Params) w1,
           length labels ≤ length examples → entity_types labels = [] →
           ∃ r s', fit examples labels params (m, w1) = (Return r, s'))
      ∧ contains "TaggerModel" msg
      ∧ contains (PyRepr.repr (VStr ct)) msg
      ∧ (plain ct = true → contains ct msg)
      ∧ (∀ m1 w1 cls s1,
           _get_model_constructor (m1, w1) = (Return cls, s1) →
           (model_settings (config m1) !! "classifier_type" = Some (VStr "memm")
            ∧ cls = MemmModel)
           ∨ (model_settings (config m1) !! "classifier_type" = Some (VStr "crf")
              ∧ cls = ConditionalRandomFields))
      ∧ (∀ m1 w1,
           model_settings (config m1) !! "classifier_type" = Some (VStr "memm") →
           _get_model_constructor (m1, w1) = (Return MemmModel, (m1, w1)))
      ∧ (∀ m1 w1,
           model_settings (config m1) !! "classifier_type" = Some (VStr "crf") →
           _get_model_constructor (m1, w1) = (Return ConditionalRandomFields, (m1, w1))).
Proof.
  intros Hct Hmemm Hcrf.
  eexists _, _. split; [apply init_spec|].
  set (m := constructed cfg _).
  assert (model_settings (config m) = model_settings cfg) as Hms.
  { subst m. cbn. by destruct (no_features cfg). }
  assert (∀ w1, _get_model_constructor (m, w1)
                = (Raise (ValueError (not_recognized "TaggerModel" (VStr ct))), (m, w1)))
    as Hsel.
  { intros w1. apply (get_model_constructor_unknown m w1 ct); [|done..].
    by rewrite Hms. }
  split; [exact Hms|]. cbn zeta. split; [exact Hsel|]. split.
  { intros examples labels params w1 Hlen Hty.
    destruct (fit_enters_shuffled examples labels params m w1 Hlen)
      as (idx & g & ex' & lb' & Hperm & Hex & Hlb & Hfit).
    eexists. rewrite Hfit. split; [|split].
    - apply fit_shuffled_selection_fails.
      + by rewrite (picked_entity_types_nil labels lb' idx).
      + by rewrite Hsel.
    - done.
    - done. }
  split.
  { intros examples labels params w1 Hlen Hty.
    destruct (fit_enters_shuffled examples labels params m w1 Hlen)
      as (idx & g & ex' & lb' & Hperm & Hex & Hlb & Hfit).
    eexists _, _. rewrite Hfit. apply fit_shuffled_degenerate.
    by rewrite (picked_entity_types_nil labels lb' idx). }
  split; [apply not_recognized_contains_class|].
  split; [apply not_recognized_contains_repr|].
  split; [apply not_recognized_contains_text|].
  split; [intros m1 w1 cls s1; apply get_model_constructor_Return|].
  split; [apply get_model_constructor_memm|apply get_model_constructor_crf].
Qed.

Lemma traverse_ext {A B} (f g : A → M B) (l : list A) s :
  Forall (λ a, ∀ s', f a s' = g a s') l → traverse f l s = traverse g l s.
Proof.
  intros Hall. revert s. induction Hall as [|a l Ha _ IH]; intros s; [done|].
  cbn. unfold bind. rewrite Ha. destruct (g a s) as [[b|e] s1]; [|done].
  by rewrite IH.
Qed.

Lemma fit_unfold (examples : list Query) (labels : list Label) (params : option Params)
    m w :
  fit examples labels params (m, w)
  = match shuffle (seq 0 (length labels)) (m, w) with
    | (Return idx, s1) =>
        match traverse (getitem examples) idx s1 with
        | (Return examples', s2) =>
            match traverse (getitem labels) idx s2 with
            | (Return labels', s3) =>
                fit_shuffled (skip_param_selection params m)
                  (py_or params (config_params m)) examples' labels' s3
            | (Raise e, s3) => (Raise e, s3)
            end
        | (Raise e, s2) => (Raise e, s2)
        end
    | (Raise e, s1) => (Raise e, s1)
    end.
Proof. reflexivity. Qed.

(** When there are more examples than labels, only the first
    [len(labels)] examples are ever read. *)
Lemma fit_surplus_examples (examples : list Query) (labels : list Label)
    (params : option Params) m w :
  fit examples labels params (m, w)
  = fit (take (length labels) examples) labels params (m, w).
Proof.
  destruct (shuffle_spec (seq 0 (length labels)) (m, w)) as (idx & g & Hsh & Hperm).
  rewrite !fit_unfold, Hsh.
  rewrite (traverse_ext (getitem examples) (getitem (take (length labels) examples))); [done|].
  rewrite Hperm. apply Forall_forall. intros i Hi s.
  apply elem_of_seq in Hi. unfold getitem. by rewrite lookup_take_lt by lia.
Qed.

(** C8, as the code has it.  [fit] never compares the two lengths.  With
    fewer examples than labels, the comprehension that reorders the examples
    raises [IndexError] inside [fit], before any collaborator is called and
    with the instance untouched.  With more examples than labels, [fit] runs
    as it would on the first [len(labels)] examples: the two lists it hands
    to the encoder and to the feature extractor have equal lengths, and no
    error comes from the mismatch. *)
Theorem fit_length_mismatch m w (examples : list Query) (labels : list Label)
    (params : option Params) :
  length examples ≠ length labels →
  (length examples < length labels
   ∧ ∃ g, fit examples labels params (m, w) = (Raise IndexError, with_rng (m, w) g))
  ∨ (length labels < length examples
     ∧ length (take (length labels) examples) = length labels
     ∧ fit examples labels params (m, w)
       = fit (take (length labels) examples) labels params (m, w)).
Proof.
  intros Hne.
  destruct (decide (length examples < length labels)) as [Hlt|Hge].
  - left. split; [done|]. by apply fit_IndexError.
  - right. split; [lia|]. split; [rewrite length_take; lia|].
    apply fit_surplus_examples.
Qed.

Lemma predict_degenerate m w (examples : list Query) :
  _no_entities m = true → predict examples (m, w) = (Return [ [] ], (m, w)).
Proof. intros Hflag. unfold predict, bind, get_self. cbn. by rewrite Hflag. Qed.

(** [fit] never clears [_no_entities]. *)
Lemma fit_keeps_flag m w (examples : list Query) (labels : list Label)
    (params : option Params) :
  _no_entities m = true →
  _no_entities (fit examples labels params (m, w)).2.1 = true.
Proof.
  intros Hflag.
  destruct (decide (length labels ≤ length examples)) as [Hlen|Hlen].
  - destruct (fit_enters_shuffled examples labels params m w Hlen)
      as (idx & g & ex' & lb' & _ & _ & _ & ->).
    by apply (fit_shuffled_frame _ _ ex' lb' m (with_rng (m, w) g).2).
  - destruct (fit_IndexError examples labels params m w) as [g ->]; [lia|done].
Qed.

(** C2, as the code has it.  A later [fit] does not clear the flag set by
    an earlier one: once [_no_entities] is set it stays set through every
    [fit], entities or not, and [predict] keeps answering [[()]] without
    consulting the classifier. *)
Theorem refit_keeps_degenerate_flag m w (examples examples' : list Query)
    (labels : list Label) (params : option Params) :
  _no_entities m = true →
  let after := (fit examples labels params (m, w)).2 in
  _no_entities after.1 = true
  ∧ predict examples' after = (Return [ [] ], after).
Proof.
  intros Hflag after.
  assert (_no_entities after.1 = true) as Hafter by (by apply fit_keeps_flag).
  split; [done|]. destruct after as [m' w']. by apply predict_degenerate.
Qed.

(** ** Parameter selection *)

Lemma skip_param_selection_iff (params : option Params) m :
  skip_param_selection params m = true
  ↔ is_Some params ∨ param_selection (config m) = None.
Proof.
  unfold skip_param_selection.
  destruct params as [p|], (param_selection (config m)) as [ps|]; cbn;
    split; try done; eauto.
  - intros [[? [=]]|[=]].
Qed.

Lemma fit_shuffled_returns (skip : bool) (params : option Params)
    (examples : list Query) (labels : list Label) m w :
  entity_types labels ≠ [] →
  recognized (config m) →
  collaborators_answer →
  (skip = true → params ≠ None) →
  ∃ r s', fit_shuffled skip params examples labels (m, w) = (Return r, s').
Proof.
  intros Hty Hrec (Hinst & Hsetup & Henc & Hencode & Hextract & Hset & Hfit & Hcv) Hp.
  assert (∃ cls, (_get_model_constructor (m, w)).1 = Return cls) as [cls Hcls].
  { destruct Hrec as [Hr|Hr].
    - exists MemmModel. by rewrite get_model_constructor_memm.
    - exists ConditionalRandomFields. by rewrite get_model_constructor_crf. }
  destruct (Hinst cls) as [clf0 H0].
  destruct (Hsetup clf0 (config m)) as [clf1 H1].
  destruct (Henc (config m)) as [enc H2].
  destruct (Hencode enc labels examples) as [y0 H3].
  destruct (Hextract clf1 examples (config m) (heap w !!! _resources m) y0 true)
    as [[[[X y] groups] clf2] H4].
  assert (∃ p, if skip then params = Some p
               else _fit_cv clf2 (config m) X y groups = inr p) as [p Hparams].
  { destruct skip.
    - destruct params as [p|]; [by exists p|]. by destruct Hp.
    - apply Hcv. }
  destruct (Hset clf2 p) as [clf3 H5].
  destruct (Hfit clf3 X y) as [clf4 H6].
  eexists _, _.
  by apply (fit_shuffled_run skip params examples labels m w
              cls clf0 clf1 enc y0 X y groups clf2 p clf3 clf4).
Qed.

(** C5, as the code has it.  With an entity type present, a [fit] that
    returns has returned the instance; it ran the cross-validated search
    unless [params] was given (even empty) or the configuration has no
    [param_selection]; and [_current_params] is the [params] passed in when
    they are a non-empty dictionary, the configuration's [params] when the
    search is skipped and the [params] passed in are absent or empty, and the
    best parameters returned by the search when it ran.  Such a [fit] does
    return when the collaborators answer, the classifier type is known, the
    examples are at least as many as the labels and some parameters are
    available. *)
Theorem fit_selects_params m w (examples : list Query) (labels : list Label)
    (params : option Params) :
  entity_types labels ≠ [] →
  (∀ r s',
     fit examples labels params (m, w) = (Return r, s') →
     r = s'.1
     ∧ ∃ evs,
         trace s'.2 = trace w ++ evs
         ∧ (¬ search_ran evs ↔ is_Some params ∨ param_selection (config m) = None)
         ∧ (truthy params = true → _current_params r = params)
         ∧ (truthy params = false →
            is_Some params ∨ param_selection (config m) = None →
            _current_params r = config_params m)
         ∧ (params = None → param_selection (config m) ≠ None →
            ∃ clf X y groups best,
              CallFitCV X y groups ∈ evs
              ∧ _fit_cv clf (config m) X y groups = inr best
              ∧ _current_params r = Some best))
  ∧ (length labels ≤ length examples →
     recognized (config m) →
     collaborators_answer →
     (is_Some params ∨ param_selection (config m) = None →
      py_or params (config_params m) ≠ None) →
     ∃ r s', fit examples labels params (m, w) = (Return r, s')).
Proof.
  intros Hty. split.
  - intros r s' Hret.
    destruct (decide (length labels ≤ length examples)) as [Hlen|Hlen].
    2:{ destruct (fit_IndexError examples labels params m w) as [g Hg]; [lia|].
        rewrite Hg in Hret. discriminate. }
    destruct (fit_enters_shuffled examples labels params m w Hlen)
      as (idx & g & ex' & lb' & Hperm & Hex & Hlb & Hfit).
    rewrite Hfit in Hret.
    apply fit_shuffled_Return in Hret
      as (cls & clf0 & clf1 & enc & y0 & X & y & groups & clf2 & p & clf3 & clf4
          & _ & _ & _ & _ & _ & _ & Hp & _ & _ & -> & ->).
    2:{ by rewrite (picked_entity_types_nil labels lb' idx). }
    split; [done|]. eexists. split; [reflexivity|].
    pose proof (skip_param_selection_iff params m) as Hskip.
    destruct (skip_param_selection params m) eqn:Hsk.
    + (* no search *)
      split; [|split; [|split]].
      * split; [intros _; by apply Hskip|]. intros _ (X' & y' & g' & Hin).
        cbn in Hin. rewrite !elem_of_cons, elem_of_nil in Hin.
        intuition discriminate.
      * intros Ht. unfold py_or in Hp. rewrite Ht in Hp. by rewrite Hp.
      * intros Ht _. unfold py_or in Hp. rewrite Ht in Hp. by rewrite Hp.
      * intros -> Hps. destruct Hskip as [Hskip _].
        destruct (Hskip eq_refl) as [[? [=]]|?]; done.
    + (* search *)
      assert (¬ (is_Some params ∨ param_selection (config m) = None)) as Hno.
      { intros H. apply Hskip in H. discriminate. }
      split; [|split; [|split]].
      * split; [|done]. intros Hnot. exfalso. apply Hnot.
        exists X, y, groups. cbn. rewrite !elem_of_cons. auto 10.
      * intros Ht. exfalso. apply Hno. left.
        destruct params; [by eexists|done].
      * intros _ H. by destruct Hno.
      * intros _ _. exists clf2, X, y, groups, p. split; [|done].
        cbn. rewrite !elem_of_cons. auto 10.
  - intros Hlen Hrec Hans Hpar.
    destruct (fit_enters_shuffled examples labels params m w Hlen)
      as (idx & g & ex' & lb' & Hperm & Hex & Hlb & Hfit).
    rewrite Hfit.
    apply (fit_shuffled_returns _ _ ex' lb' m (with_rng (m, w) g).2); try done.
    + by rewrite (picked_entity_types_nil labels lb' idx).
    + intros Hsk. apply Hpar. by apply skip_param_selection_iff.
Qed.

(** ** Every order is drawn by exactly one sequence of draws *)

Lemma exchange_length {A} (x : list A) i j : length (exchange x i j) = length x.
Proof.
  unfold exchange. destruct (x !! j), (x !! i); by rewrite ?length_insert.
Qed.

Lemma exchange_lookup_other {A} (x : list A) i j k :
  k ≠ i → k ≠ j → exchange x i j !! k = x !! k.
Proof.
  intros Hi Hj. unfold exchange. destruct (x !! j), (x !! i); [|done..].
  by rewrite !list_lookup_insert_ne.
Qed.

Lemma exchange_lookup_target {A} (x : list A) i j v :
  i < length x → x !! j = Some v → exchange x i j !! i = Some v.
Proof.
  intros Hi Hj. unfold exchange. rewrite Hj.
  destruct (lookup_lt_is_Some_2 x i Hi) as [xi Hxi]. rewrite Hxi.
  destruct (decide (i = j)) as [->|Hne].
  - rewrite list_lookup_insert_eq by (by rewrite length_insert). congruence.
  - rewrite list_lookup_insert_ne by done. by rewrite list_lookup_insert_eq.
Qed.

Lemma exchange_perm {A} (x : list A) i j : exchange x i j ≡ₚ x.
Proof.
  unfold exchange. destruct (x !! j) eqn:Hj, (x !! i) eqn:Hi; [|done..].
  by apply exchange_Permutation.
Qed.

Lemma swap_exchange (x : list nat) i j s :
  i < length x → j < length x → swap x i j s = (Return (exchange x i j), s).
Proof.
  intros Hi Hj.
  destruct (lookup_lt_is_Some_2 x i Hi) as [xi Hxi].
  destruct (lookup_lt_is_Some_2 x j Hj) as [xj Hxj].
  unfold swap, bind, exchange.
  by rewrite (getitem_Some _ _ _ _ Hxj), (getitem_Some _ _ _ _ Hxi), Hxi, Hxj.
Qed.

Lemma draws_of_admissible i g : admissible i (draws_of i g).
Proof.
  revert g. induction i as [|i IH]; intros g; [done|].
  change ((randbelow g (S i + 1)).1 ≤ S i
          ∧ admissible i (draws_of i (randbelow g (S i + 1)).2)).
  split; [|apply IH].
  pose proof (randbelow_lt g (S i + 1)). lia.
Qed.

(** The shuffle run on the state is the shuffle by the draws the random
    source yields. *)
Lemma shuffle_from_draws i (x : list nat) s :
  i < length x →
  shuffle_from i x s
  = (Return (shuffle_with i (draws_of i (rng s.2)) x), with_rng s (rng_after i (rng s.2))).
Proof.
  revert x s. induction i as [|i IH]; intros x s Hi.
  - destruct s as [m w]. cbn. unfold ret. by rewrite with_rng_same.
  - cbn [shuffle_from draws_of shuffle_with rng_after]. unfold bind at 1.
    rewrite draw_spec.
    set (d := randbelow (rng s.2) (S i + 1)).
    assert (d.1 < S i + 1) as Hd by (apply randbelow_lt; lia).
    unfold bind. rewrite swap_exchange by lia.
    rewrite IH by (rewrite exchange_length; lia). done.
Qed.

Lemma shuffle_with_length {A} i draws (x : list A) :
  length (shuffle_with i draws x) = length x.
Proof.
  revert draws x. induction i as [|i IH]; intros [|j draws] x; try done.
  cbn. by rewrite IH, exchange_length.
Qed.

(** Positions above the loop index are left alone. *)
Lemma shuffle_with_above {A} i draws (x : list A) k :
  admissible i draws → i < k → shuffle_with i draws x !! k = x !! k.
Proof.
  revert draws x. induction i as [|i IH]; intros [|j draws] x Hadm Hk; try done.
  cbn in Hadm. destruct Hadm as [Hj Hadm]. cbn [shuffle_with].
  rewrite IH by (done || lia). apply exchange_lookup_other; lia.
Qed.

Lemma shuffle_with_bijective {A} i (x target : list A) :
  i < length x → NoDup x → target ≡ₚ x →
  (∀ k, i < k → target !! k = x !! k) →
  ∃ draws, admissible i draws
           ∧ shuffle_with i draws x = target
           ∧ ∀ draws', admissible i draws' → shuffle_with i draws' x = target →
                       draws' = draws.
Proof.
  revert x. induction i as [|i IH]; intros x Hlen Hnd Hperm Hfix.
  - exists []. split; [done|]. split.
    + cbn. symmetry. apply list_eq. intros [|k]; [|apply Hfix; lia].
      destruct x as [|x0 x]; [cbn in Hlen; lia|].
      destruct target as [|t0 target]; [by apply Permutation_nil_l in Hperm|].
      assert (target = x) as ->.
      { apply list_eq. intros k. apply (Hfix (S k)). lia. }
      cbn. f_equal.
      assert ([t0] ≡ₚ [x0]) as H1.
      { apply (Permutation_app_inv_l x). by rewrite <-!Permutation_cons_append. }
      by apply Permutation_singleton_inj in H1.
    + by intros [|??].
  - assert (length target = length x) as Hlt by (by apply Permutation_length).
    destruct (lookup_lt_is_Some_2 target (S i)) as [v Hv]; [lia|].
    assert (v ∈ x) as Hin.
    { rewrite <-Hperm. by eapply list_elem_of_lookup_2. }
    apply list_elem_of_lookup in Hin as [j Hj].
    assert (NoDup target) as Hndt by (by rewrite Hperm).
    assert (j ≤ S i) as Hjle.
    { destruct (decide (j ≤ S i)) as [|Hgt]; [done|].
      assert (target !! j = Some v) as Hv' by (rewrite Hfix by lia; done).
      pose proof (NoDup_lookup _ _ _ _ Hndt Hv Hv'). lia. }
    destruct (IH (exchange x (S i) j)) as (draws & Hadm & Hrun & Huniq).
    + rewrite exchange_length. lia.
    + by rewrite exchange_perm.
    + by rewrite exchange_perm.
    + intros k Hk. destruct (decide (k = S i)) as [->|Hne].
      * rewrite Hv. symmetry. by apply exchange_lookup_target.
      * rewrite exchange_lookup_other by lia. apply Hfix. lia.
    + exists (j :: draws). split; [by split|]. split; [exact Hrun|].
      intros [|j' draws'] Hadm' Hrun'; [done|].
      cbn in Hadm'. destruct Hadm' as [Hj' Hadm']. cbn [shuffle_with] in Hrun'.
      assert (x !! j' = Some v) as Hxj'.
      { destruct (lookup_lt_is_Some_2 x j') as [v' Hv']; [lia|].
        rewrite Hv'. f_equal.
        assert (target !! S i = Some v') as Ht.
        { rewrite <-Hrun'. rewrite shuffle_with_above by (done || lia).
          by apply exchange_lookup_target. }
        congruence. }
      pose proof (NoDup_lookup _ _ _ _ Hnd Hj Hxj') as ->.
      f_equal. by apply Huniq.
Qed.

(** ** The order [fit] works in is the one drawn *)

Lemma shuffle_with_perm {A} i draws (x : list A) : shuffle_with i draws x ≡ₚ x.
Proof.
  revert draws x. induction i as [|i IH]; intros [|j draws] x; try done.
  cbn [shuffle_with]. by rewrite IH, exchange_perm.
Qed.

Lemma drawn_order_perm n g : drawn_order n g ≡ₚ seq 0 n.
Proof. apply shuffle_with_perm. Qed.

(** [random.shuffle] on [range(n)] returns the order its draws give and
    leaves the random source where the last draw left it. *)
Lemma shuffle_drawn n s :
  shuffle (seq 0 n) s
  = (Return (drawn_order n (rng s.2)), with_rng s (rng_after (n - 1) (rng s.2))).
Proof.
  unfold shuffle, drawn_order. rewrite length_seq. destruct n as [|n].
  - destruct s as [m w]. cbn. unfold ret. by rewrite with_rng_same.
  - apply shuffle_from_draws. rewrite length_seq. lia.
Qed.

Lemma orders_drawn_once n (target : list nat) :
  target ≡ₚ seq 0 n →
  ∃ draws,
    admissible (n - 1) draws
    ∧ shuffle_with (n - 1) draws (seq 0 n) = target
    ∧ ∀ draws', admissible (n - 1) draws' →
                shuffle_with (n - 1) draws' (seq 0 n) = target →
                draws' = draws.
Proof.
  intros Hperm. destruct n as [|n].
  - apply Permutation_nil_r in Hperm as ->. exists []. split; [done|].
    split; [done|]. by intros [|??].
  - apply shuffle_with_bijective.
    + rewrite length_seq. lia.
    + apply NoDup_seq.
    + done.
    + intros k Hk.
      rewrite (lookup_ge_None_2 target)
        by (rewrite (Permutation_length Hperm), length_seq; lia).
      symmetry. apply lookup_ge_None_2. rewrite length_seq. lia.
Qed.

Lemma fit_enters_drawn (examples : list Query) (labels : list Label)
    (params : option Params) m w :
  length labels ≤ length examples →
  ∃ examples' labels',
    Forall2 (λ i a, examples !! i = Some a) (drawn_order (length labels) (rng w)) examples'
    ∧ Forall2 (λ i a, labels !! i = Some a) (drawn_order (length labels) (rng w)) labels'
    ∧ fit examples labels params (m, w)
      = fit_shuffled (skip_param_selection params m) (py_or params (config_params m))
          examples' labels'
          (with_rng (m, w) (rng_after (length labels - 1) (rng w))).
Proof.
  intros Hlen.
  set (idx := drawn_order (length labels) (rng w)).
  set (s1 := with_rng (m, w) (rng_after (length labels - 1) (rng w))).
  assert (Forall (λ i, i < length labels) idx) as Hlt.
  { unfold idx. rewrite drawn_order_perm. apply Forall_forall. intros i Hi.
    apply elem_of_seq in Hi. lia. }
  destruct (traverse_getitem_Some examples idx s1) as (ex' & Hex & Hpe).
  { eapply Forall_impl; [exact Hlt|]. cbn. intros. lia. }
  destruct (traverse_getitem_Some labels idx s1) as (lb' & Hlb & Hpl); [done|].
  exists ex', lb'. split; [done|]. split; [done|].
  rewrite fit_unfold, shuffle_drawn. cbn [snd].
  fold idx. fold s1. by rewrite Hex, Hlb.
Qed.

(** C6. For lists of equal length, [fit] first replaces [examples] and
    [labels] by their images under one and the same order of the positions:
    the order [random.shuffle] makes of [range(len(labels))] with the numbers
    the random source yields.  Both lists are read at that order, position
    by position, so the pairs after the shuffle are a permutation of the
    pairs given; everything after that is done on the shuffled lists, and
    the encoder and the feature extractor are only ever called on them.
    The draws the loop makes are admissible, and every order of the
    positions is the result of exactly one admissible sequence of draws: a
    random source whose draws are uniform and independent gives every order
    the same chance. *)
Theorem fit_shuffles_pairs_jointly m w (examples : list Query) (labels : list Label)
    (params : option Params) :
  length examples = length labels →
  ∃ examples' labels' g,
    zip examples' labels' ≡ₚ zip examples labels
    ∧ length examples' = length examples
    ∧ length labels' = length labels
    ∧ fit examples labels params (m, w)
      = fit_shuffled (skip_param_selection params m) (py_or params (config_params m))
          examples' labels' (with_rng (m, w) g)
    ∧ shuffle (seq 0 (length labels)) (m, w)
      = (Return (drawn_order (length labels) (rng w)), with_rng (m, w) g)
    ∧ g = rng_after (length labels - 1) (rng w)
    ∧ Forall2 (λ i a, examples !! i = Some a)
        (drawn_order (length labels) (rng w)) examples'
    ∧ Forall2 (λ i a, labels !! i = Some a)
        (drawn_order (length labels) (rng w)) labels'
    ∧ admissible (length labels - 1) (draws_of (length labels - 1) (rng w))
    ∧ (∀ target, target ≡ₚ seq 0 (length labels) →
         ∃ draws,
           admissible (length labels - 1) draws
           ∧ shuffle_with (length labels - 1) draws (seq 0 (length labels)) = target
           ∧ ∀ draws', admissible (length labels - 1) draws' →
                       shuffle_with (length labels - 1) draws' (seq 0 (length labels))
                       = target →
                       draws' = draws)
    ∧ ∃ evs,
        trace (fit examples labels params (m, w)).2.2 = trace w ++ evs
        ∧ Forall (sees examples' labels') evs
        ∧ ∀ r s', fit examples labels params (m, w) = (Return r, s') →
                  entity_types labels ≠ [] →
                  CallEncode labels' examples' ∈ evs
                  ∧ ∃ y, CallExtractFeatures examples' y true ∈ evs.
Proof.
  intros Hlen.
  destruct (fit_enters_drawn examples labels params m w) as
    (ex' & lb' & Hex & Hlb & Hfit); [lia|].
  set (idx := drawn_order (length labels) (rng w)) in *.
  set (g := rng_after (length labels - 1) (rng w)) in *.
  assert (idx ≡ₚ seq 0 (length labels)) as Hperm by apply drawn_order_perm.
  exists ex', lb', g.
  assert (length (zip examples labels) = length labels) as Hzl.
  { rewrite length_zip_with. lia. }
  split.
  { apply (picked_Permutation (zip examples labels) idx).
    - by rewrite Hzl.
    - by apply picked_zip. }
  split.
  { rewrite <-(Forall2_length _ _ _ Hex), (Permutation_length Hperm), length_seq. lia. }
  split.
  { by rewrite <-(Forall2_length _ _ _ Hlb), (Permutation_length Hperm), length_seq. }
  split; [exact Hfit|].
  split; [apply (shuffle_drawn (length labels) (m, w))|].
  split; [done|].
  split; [exact Hex|].
  split; [exact Hlb|].
  split; [apply draws_of_admissible|].
  split; [apply orders_drawn_once|].
  pose proof (fit_shuffled_frame (skip_param_selection params m)
                (py_or params (config_params m)) ex' lb' m
                (with_rng (m, w) g).2) as Hframe.
  cbn zeta in Hframe.
  destruct Hframe as (_ & _ & _ & _ & _ & _ & evs & Htr & Hsees).
  exists evs. rewrite Hfit. split; [exact Htr|]. split; [exact Hsees|].
  intros r s' Hret Hty.
  change (with_rng (m, w) g) with (m, (with_rng (m, w) g).2) in Hret.
  rewrite Hret in Htr.
  apply fit_shuffled_Return in Hret
      as (cls & clf0 & clf1 & enc & y0 & X & y & groups & clf2 & p & clf3 & clf4
          & _ & _ & _ & _ & _ & _ & _ & _ & _ & _ & ->).
  2:{ by rewrite (picked_entity_types_nil labels lb' idx). }
  cbn in Htr. apply app_inv_head in Htr. subst evs.
  split; [|exists y0]; rewrite !elem_of_cons.
  - do 3 right. by left.
  - do 4 right. by left.
Qed.

(** X1. The shuffle of [fit] is the Fisher-Yates loop run on the numbers
    the random source yields, and that loop is a bijection between the
    admissible sequences of draws and the orders of [range(n)]: every order
    is produced by one sequence of draws and by no other.  Draws that are
    uniform and independent therefore give every order the same chance. *)
Theorem shuffle_reaches_each_order_once (n : nat) (target : list nat) s :
  target ≡ₚ seq 0 n →
  shuffle (seq 0 n) s
  = (Return (shuffle_with (n - 1) (draws_of (n - 1) (rng s.2)) (seq 0 n)),
     with_rng s (rng_after (n - 1) (rng s.2)))
  ∧ admissible (n - 1) (draws_of (n - 1) (rng s.2))
  ∧ ∃ draws,
      admissible (n - 1) draws
      ∧ shuffle_with (n - 1) draws (seq 0 n) = target
      ∧ ∀ draws', admissible (n - 1) draws' →
                  shuffle_with (n - 1) draws' (seq 0 n) = target →
                  draws' = draws.
Proof.
  intros Hperm. split; [|split; [apply draws_of_admissible|]].
  - unfold shuffle. rewrite length_seq. destruct n as [|n].
    + destruct s as [m w]. cbn. unfold ret. by rewrite with_rng_same.
    + apply shuffle_from_draws. rewrite length_seq. lia.
  - destruct n as [|n].
    + apply Permutation_nil_r in Hperm as ->. exists []. split; [done|].
      split; [done|]. by intros [|??].
    + apply shuffle_with_bijective.
      * rewrite length_seq. lia.
      * apply NoDup_seq.
      * done.
      * intros k Hk.
        rewrite (lookup_ge_None_2 target)
          by (rewrite (Permutation_length Hperm), length_seq; lia).
        symmetry. apply lookup_ge_None_2. rewrite length_seq. lia.
Qed.

End Properties.

(** * The theorems at concrete inputs

    All of them run on the collaborators of [Demo]; [model "memm"] is what
    [TaggerModel(cfg)] builds in an empty store. *)

Example repr_nonexistent : PyRepr.repr (VStr "nonexistent") = "'nonexistent'".
Proof. reflexivity. Qed.

Example repr_with_quote :
  PyRepr.repr (VStr "it's") = String PyRepr.dquote ("it's" +:+ String PyRepr.dquote "").
Proof. reflexivity. Qed.

Example repr_nested :
  PyRepr.repr (VDict [(VInt 1, VList [VInt (-2); VInt 0])]) = "{1: [-2, 0]}".
Proof. reflexivity. Qed.

Example model_is_constructed :
  (TaggerModel__init__ (Demo.cfg "memm") Demo.world0).1 = Return (model "memm").
Proof. reflexivity. Qed.

Lemma degenerate_predict_evaluate_witness :
  let m := degenerate (model "memm") [] in
  predict (C := Demo.collaborators) ["find a cafe"; "book a table"] (m, Demo.world0)
  = (Return [ [] ], (m, Demo.world0))
  ∧ evaluate (C := Demo.collaborators) ["find a cafe"; "book a table"]
      [ [Demo.ent "place"]; [] ] (m, Demo.world0)
    = (Return None, (m, traced Demo.world0 [LogWarning no_eval_warning])).
Proof.
  apply (degenerate_predict_evaluate (C := Demo.collaborators)). reflexivity.
Defined.

Lemma refit_keeps_degenerate_flag_witness :
  let first := (fit (C := Demo.collaborators) ["hello"] [ [] ] None
                  (model "memm", Demo.world0)).2 in
  let after := (fit (C := Demo.collaborators) ["book a table"] [ [Demo.ent "X"] ] None
                  (first.1, first.2)).2 in
  _no_entities first.1 = true
  ∧ is_Some (_clf after.1)
  ∧ is_Some (_current_params after.1)
  ∧ _no_entities after.1 = true
  ∧ predict (C := Demo.collaborators) ["book a table"] after = (Return [ [] ], after).
Proof.
  intros first after.
  split; [reflexivity|].
  split; [vm_compute; eexists; reflexivity|].
  split; [vm_compute; eexists; reflexivity|].
  apply (refit_keeps_degenerate_flag (C := Demo.collaborators) first.1 first.2).
  reflexivity.
Defined.

Lemma unknown_classifier_type_witness :
  ∃ m w',
    TaggerModel__init__ (C := Demo.collaborators) (Demo.cfg "nonexistent") Demo.world0
    = (Return m, w')
    ∧ (fit (C := Demo.collaborators) ["book a table"] [ [Demo.ent "X"] ] None (m, w')).1
      = Raise (ValueError "TaggerModel: Classifier type 'nonexistent' not recognized")
    ∧ contains "nonexistent" "TaggerModel: Classifier type 'nonexistent' not recognized".
Proof.
  destruct (unknown_classifier_type_raises_at_selection (C := Demo.collaborators)
              (Demo.cfg "nonexistent") "nonexistent" Demo.world0)
    as (m & w' & Hinit & _ & _ & Hfit & _ & _ & _ & Hplain & _).
  - reflexivity.
  - discriminate.
  - discriminate.
  - exists m, w'. split; [exact Hinit|]. split.
    + destruct (Hfit ["book a table"] [ [Demo.ent "X"] ] None w') as (s' & Hraise & _).
      * cbn. lia.
      * discriminate.
      * by rewrite Hraise.
    + apply Hplain. reflexivity.
Defined.

Lemma fit_without_entity_types_witness :
  ∃ g, fit (C := Demo.collaborators) ["hello"; "thanks"] [ []; [] ] None
         (model "memm", Demo.world0)
       = (Return (degenerate (model "memm") []),
          (degenerate (model "memm") [],
           traced (with_rng (model "memm", Demo.world0) g).2 [LogWarning no_fit_warning])).
Proof.
  destruct (fit_without_entity_types (C := Demo.collaborators) (model "memm") Demo.world0
              ["hello"; "thanks"] [ []; [] ] None) as (g & Hfit & _).
  - reflexivity.
  - cbn. lia.
  - by exists g.
Defined.

Lemma fit_selects_params_witness :
  ∃ r s',
    fit (C := Demo.collaborators) ["find a cafe"; "hello"] [ [Demo.ent "place"]; [] ] None
      (constructed searching_cfg 1%positive, Demo.world0) = (Return r, s')
    ∧ r = s'.1
    ∧ _current_params r = Some {["C" := VInt 100]}.
Proof.
  destruct (fit_selects_params (C := Demo.collaborators)
              (constructed searching_cfg 1%positive) Demo.world0
              ["find a cafe"; "hello"] [ [Demo.ent "place"]; [] ] None)
    as [Hinv Htotal]; [discriminate|].
  destruct Htotal as (r & s' & Hret).
  - cbn. lia.
  - right. reflexivity.
  - repeat split; intros; eexists; reflexivity.
  - intros [[? [=]]|[=]].
  - exists r, s'. split; [exact Hret|].
    destruct (Hinv r s' Hret) as (Hself & evs & _ & _ & _ & _ & Hsearch).
    split; [exact Hself|].
    destruct Hsearch as (clf & X & y & groups & best & _ & Hcv & Hcur);
      [reflexivity|discriminate|].
    cbn in Hcv. injection Hcv as <-. exact Hcur.
Defined.

Lemma fit_shuffles_pairs_jointly_witness :
  drawn_order (C := Demo.collaborators) 3 (rng Demo.world0) = [2; 1; 0]
  ∧ fit (C := Demo.collaborators) ["find a cafe"; "hello"; "book a table"]
      [ [Demo.ent "place"]; []; [Demo.ent "time"] ] None (model "memm", Demo.world0)
    = fit_shuffled (C := Demo.collaborators) true (Some {["C" := VInt 1]})
        ["book a table"; "hello"; "find a cafe"]
        [ [Demo.ent "time"]; []; [Demo.ent "place"] ]
        (with_rng (model "memm", Demo.world0) 2).
Proof.
  split; [reflexivity|].
  destruct (fit_shuffles_pairs_jointly (C := Demo.collaborators) (model "memm") Demo.world0
              ["find a cafe"; "hello"; "book a table"]
              [ [Demo.ent "place"]; []; [Demo.ent "time"] ] None)
    as (ex' & lb' & g & _ & _ & _ & Hfit & _ & Hg & Hex & Hlb & _); [reflexivity|].
  change (drawn_order (C := Demo.collaborators) _ _) with [2; 1; 0] in Hex, Hlb.
  change (rng_after (C := Demo.collaborators) _ _) with 2 in Hg.
  apply Forall2_cons_inv_l in Hex as (a2 & ex1 & [= <-] & Hex & ->).
  apply Forall2_cons_inv_l in Hex as (a1 & ex2 & [= <-] & Hex & ->).
  apply Forall2_cons_inv_l in Hex as (a0 & ex3 & [= <-] & Hex & ->).
  apply Forall2_nil_inv_l in Hex as ->.
  apply Forall2_cons_inv_l in Hlb as (b2 & lb1 & [= <-] & Hlb & ->).
  apply Forall2_cons_inv_l in Hlb as (b1 & lb2 & [= <-] & Hlb & ->).
  apply Forall2_cons_inv_l in Hlb as (b0 & lb3 & [= <-] & Hlb & ->).
  apply Forall2_nil_inv_l in Hlb as ->.
  rewrite Hg in Hfit. exact Hfit.
Defined.

Lemma fit_length_mismatch_witness :
  fit (C := Demo.collaborators) ["find a cafe"; "hello"; "thanks"] [ [Demo.ent "place"] ] None
    (model "memm", Demo.world0)
  = fit (C := Demo.collaborators) ["find a cafe"] [ [Demo.ent "place"] ] None
      (model "memm", Demo.world0).
Proof.
  destruct (fit_length_mismatch (C := Demo.collaborators) (model "memm") Demo.world0
              ["find a cafe"; "hello"; "thanks"] [ [Demo.ent "place"] ] None)
    as [[Hlt _]|(_ & _ & Hfit)].
  - cbn. lia.
  - cbn in Hlt. lia.
  - exact Hfit.
Defined.

(** C5 as stated fails: [params={}] is given, the search is skipped, and
    [_current_params] ends as the configuration's [params], not as the
    dictionary passed in. *)
Lemma fit_empty_params_counterexample :
  ∃ r s',
    fit (C := Demo.collaborators) ["find a cafe"] [ [Demo.ent "place"] ] (Some ∅)
      (model "memm", Demo.world0) = (Return r, s')
    ∧ _current_params r = Some {["C" := VInt 1]}
    ∧ _current_params r ≠ Some ∅.
Proof.
  eexists _, _. split; [vm_compute; reflexivity|]. split; [reflexivity|].
  intros H. vm_compute in H. discriminate H.
Qed.

(** C8 as stated fails both ways: with more examples than labels [fit]
    returns and nothing raises; with fewer, the [IndexError] is raised by
    [fit] itself before the encoder or the feature extractor is called. *)
Lemma fit_length_mismatch_counterexample :
  (∃ r s',
     fit (C := Demo.collaborators) ["find a cafe"; "hello"] [ [Demo.ent "place"] ] None
       (model "memm", Demo.world0) = (Return r, s'))
  ∧ (∃ s',
       fit (C := Demo.collaborators) [] [ [Demo.ent "place"] ] None
         (model "memm", Demo.world0) = (Raise IndexError, s')
       ∧ trace s'.2 = []).
Proof.
  split.
  - eexists _, _. vm_compute. reflexivity.
  - eexists. split; [vm_compute; reflexivity|reflexivity].
Qed.

Lemma shuffle_reaches_each_order_once_witness :
  ∃ draws,
    admissible 2 draws
    ∧ shuffle_with 2 draws [0; 1; 2] = [2; 0; 1]
    ∧ ∀ draws', admissible 2 draws' → shuffle_with 2 draws' [0; 1; 2] = [2; 0; 1] →
                draws' = draws.
Proof.
  destruct (shuffle_reaches_each_order_once (C := Demo.collaborators) 3 [2; 0; 1]
              (model "memm", Demo.world0)) as (_ & _ & Hdraws).
  - cbn. etrans; [apply perm_swap|apply perm_skip, perm_swap].
  - exact Hdraws.
Defined.

(** * Prediction, evaluation and the edges of training *)

Section Coverage.

Context `{C : Collaborators}.

Implicit Types (m : TaggerModel C) (w : World C) (s : State).

Tactic Notation "step_methods" "in" hyp(H) :=
  unfold _fit, get_clf in H;
  unfold bind, call, emit, ret, raise, set_clf, set_label_encoder, set_current_params,
    set_no_entities, set_types, modify_self, get_self, read_dict in H.

Ltac split_answers_in H :=
  repeat match type of H with
         | context [match ?r with inl _ => _ | inr _ => _ end] =>
             destruct r eqn:?; cbn in H
         | context [let '(_, _) := ?r in _] =>
             destruct r eqn:?; cbn in H
         end.

Lemma only_traced_eq s m w evs : only_traced s m w evs → s = (m, traced w evs).
Proof.
  destruct s as [m' [h t g]]. unfold only_traced, traced. cbn.
  by intros (-> & -> & -> & ->).
Qed.

Lemma only_traced_refl m w : only_traced (m, w) m w [].
Proof. unfold only_traced. cbn. by rewrite app_nil_r. Qed.

Lemma only_traced_step s m w w' evs evs' :
  only_traced (m, w') m w evs → only_traced s m w' evs' →
  only_traced s m w (evs ++ evs').
Proof.
  unfold only_traced. cbn. intros (_ & Hh & Hr & Ht) (Hm & Hh' & Hr' & Ht').
  rewrite Hh', Hr', Ht', Ht, Hh, Hr. by rewrite app_assoc.
Qed.

(** ** The comprehension of [predict] *)

Lemma traverse_cons {A B} (f : A → M B) a (l : list A) s :
  traverse f (a :: l) s
  = match f a s with
    | (Return b, s1) =>
        match traverse f l s1 with
        | (Return bs, s2) => (Return (b :: bs), s2)
        | (Raise e, s2) => (Raise e, s2)
        end
    | (Raise e, s1) => (Raise e, s1)
    end.
Proof.
  cbn. unfold bind. destruct (f a s) as [[b|e] s1]; [|done].
  by destruct (traverse f l s1) as [[bs|e] s2].
Qed.

Lemma decode_one_spec (pair : Tags * Query) m w :
  decode_one pair (m, w)
  = match _label_encoder m with
    | None => (Raise (AttributeError "'NoneType' object has no attribute"), (m, w))
    | Some enc =>
        match label_decode enc [pair.1] [pair.2] with
        | inl msg =>
            (Raise (CollaboratorError LabelEncoder msg),
             (m, traced w [CallDecode [pair.1] [pair.2]]))
        | inr decoded =>
            match decoded !! 0 with
            | Some l => (Return l, (m, traced w [CallDecode [pair.1] [pair.2]]))
            | None => (Raise IndexError, (m, traced w [CallDecode [pair.1] [pair.2]]))
            end
        end
    end.
Proof.
  unfold decode_one, bind, get_encoder, get_self, call, emit, ret, raise, getitem. cbn.
  destruct (_label_encoder m) as [enc|]; [|done]. cbn.
  destruct (label_decode enc [pair.1] [pair.2]) as [msg|decoded]; [done|]. cbn.
  by destruct (decoded !! 0).
Qed.

Lemma only_traced_traced m w evs : only_traced (m, traced w evs) m w evs.
Proof. done. Qed.

Lemma decode_loop (pairs : list (Tags * Query)) m w :
  ∃ evs,
    only_traced (traverse decode_one pairs (m, w)).2 m w evs
    ∧ ∀ labels,
        (traverse decode_one pairs (m, w)).1 = Return labels →
        Forall2 (decodes_to m) pairs labels ∧ evs = decode_calls pairs.
Proof.
  revert w. induction pairs as [|pair pairs IH]; intros w.
  - exists []. split; [apply only_traced_refl|]. cbn. intros labels [= <-].
    split; [constructor|done].
  - rewrite traverse_cons, decode_one_spec.
    destruct (_label_encoder m) as [enc|] eqn:Henc.
    2:{ exists []. split; [apply only_traced_refl|]. intros labels [=]. }
    destruct (label_decode enc [pair.1] [pair.2]) as [msg|decoded] eqn:Hdec.
    { eexists. split; [apply only_traced_traced|]. intros labels [=]. }
    destruct (decoded !! 0) as [l|] eqn:Hl.
    2:{ eexists. split; [apply only_traced_traced|]. intros labels [=]. }
    destruct (IH (traced w [CallDecode [pair.1] [pair.2]])) as (evs & Htr & Hret).
    destruct (traverse decode_one pairs (m, traced w [CallDecode [pair.1] [pair.2]]))
      as [[rest|e] s1] eqn:Hrun; cbn in Htr, Hret.
    + exists ([CallDecode [pair.1] [pair.2]] ++ evs). split.
      * eapply only_traced_step; [apply only_traced_traced|exact Htr].
      * intros labels [= <-]. destruct (Hret rest eq_refl) as [Hall ->].
        split; [|done]. constructor; [|done]. by exists enc, decoded.
    + exists ([CallDecode [pair.1] [pair.2]] ++ evs). split.
      * eapply only_traced_step; [apply only_traced_traced|exact Htr].
      * intros labels [=].
Qed.

Lemma predict_spec (examples : list Query) m w :
  predict examples (m, w)
  = if _no_entities m then (Return [ [] ], (m, w))
    else match _clf m with
         | None => (Raise (AttributeError "'NoneType' object has no attribute"), (m, w))
         | Some clf =>
             match extract_and_predict clf examples (config m) (heap w !!! _resources m) with
             | inl msg =>
                 (Raise (CollaboratorError Classifier msg),
                  (m, traced w [CallExtractAndPredict examples]))
             | inr tags =>
                 traverse decode_one (zip tags examples)
                   (m, traced w [CallExtractAndPredict examples])
             end
         end.
Proof.
  unfold predict. unfold bind at 1. cbn [get_self fst].
  destruct (_no_entities m); [done|].
  unfold bind at 1. unfold get_clf, bind, get_self. cbn [fst].
  destruct (_clf m) as [clf|]; [|done]. cbn.
  unfold call, bind, emit, read_dict. cbn.
  by destruct (extract_and_predict clf examples (config m) (heap w !!! _resources m)).
Qed.

(** The comprehension of [evaluate] reads and writes no state: it is the
    list of the records when both lists reach every index, an [IndexError]
    otherwise. *)
Lemma traverse_evaluated (labels predictions : list Label) (lt : string)
    (l : list (nat * Query)) s :
  traverse (evaluated labels predictions lt) l s
  = match mapM (record_at labels predictions lt) l with
    | Some records => (Return records, s)
    | None => (Raise IndexError, s)
    end.
Proof.
  induction l as [|ie l IH]; [done|].
  rewrite traverse_cons. unfold evaluated at 1, record_at at 1.
  unfold bind, getitem, ret, raise. cbn.
  destruct (labels !! ie.1) as [expected|]; cbn; [|done].
  destruct (predictions !! ie.1) as [predicted|]; cbn; [|done].
  rewrite IH. by destruct (mapM _ l).
Qed.

Lemma evaluate_spec (examples : list Query) (labels : list Label) m w :
  _no_entities m = false →
  evaluate examples labels (m, w)
  = match predict examples (m, w) with
    | (Return predictions, s1) =>
        match mapM (record_at labels predictions (label_type (config m)))
                (zip (seq 0 (length examples)) examples) with
        | Some records =>
            (Return (Some {| eme_config := {| features := features (config s1.1);
                                              model_settings := model_settings (config s1.1);
                                              params := _current_params s1.1;
                                              param_selection := param_selection (config s1.1);
                                              label_type := label_type (config s1.1) |};
                             eme_results := records |}), s1)
        | None => (Raise IndexError, s1)
        end
    | (Raise e, s1) => (Raise e, s1)
    end.
Proof.
  intros Hflag. unfold evaluate. unfold bind at 1. cbn [get_self fst]. rewrite Hflag.
  unfold bind at 1. destruct (predict examples (m, w)) as [[predictions|e] s1]; [|done].
  unfold bind at 1.
  change (traverse _ (zip (seq 0 (length examples)) examples) s1)
    with (traverse (evaluated labels predictions (label_type (config m)))
            (zip (seq 0 (length examples)) examples) s1).
  rewrite traverse_evaluated.
  by destruct (mapM _ _).
Qed.

(** [predict] returns at most one label sequence per example. *)
Lemma predict_length_le (examples : list Query) (labels : list Label) m w s' :
  _no_entities m = false →
  predict examples (m, w) = (Return labels, s') →
  length labels ≤ length examples.
Proof.
  intros Hflag. rewrite predict_spec, Hflag.
  destruct (_clf m) as [clf|]; [|done].
  destruct (extract_and_predict clf examples (config m) (heap w !!! _resources m))
    as [msg|tags]; [done|].
  intros Hrun.
  destruct (decode_loop (zip tags examples) m (traced w [CallExtractAndPredict examples]))
    as (evs & _ & Hret).
  rewrite Hrun in Hret. destruct (Hret labels eq_refl) as [Hall _].
  rewrite <-(Forall2_length _ _ _ Hall), length_zip_with. lia.
Qed.

(** X3. [predict] on an instance that is not degenerate, when it returns:
    the classifier was asked once, for all the examples; the result pairs
    the tag sequences with the examples in order and stops at the shorter of
    the two (so a classifier that answers with fewer tag sequences than
    there are examples gives fewer labels, silently); each label is the first
    one decoded from its own pair; and nothing but the trace has changed. *)
Theorem predict_labels_aligned m w (examples : list Query) (labels : list Label) s' :
  _no_entities m = false →
  predict examples (m, w) = (Return labels, s') →
  ∃ clf tags,
    _clf m = Some clf
    ∧ extract_and_predict clf examples (config m) (heap w !!! _resources m) = inr tags
    ∧ length labels = min (length tags) (length examples)
    ∧ Forall2 (decodes_to m) (zip tags examples) labels
    ∧ s' = (m, traced w (CallExtractAndPredict examples :: decode_calls (zip tags examples))).
Proof.
  intros Hflag. rewrite predict_spec, Hflag.
  destruct (_clf m) as [clf|]; [|done].
  destruct (extract_and_predict clf examples (config m) (heap w !!! _resources m))
    as [msg|tags] eqn:Htags; [done|].
  intros Hrun.
  destruct (decode_loop (zip tags examples) m (traced w [CallExtractAndPredict examples]))
    as (evs & Htr & Hret).
  rewrite Hrun in Htr, Hret. cbn in Htr, Hret.
  destruct (Hret labels eq_refl) as [Hall ->].
  exists clf, tags. split; [done|]. split; [done|]. split.
  - rewrite <-(Forall2_length _ _ _ Hall). apply length_zip_with.
  - split; [exact Hall|].
    apply only_traced_eq.
    apply (only_traced_step _ _ _ (traced w [CallExtractAndPredict examples])
             [CallExtractAndPredict examples]); [apply only_traced_traced|exact Htr].
Qed.

(** X5. On an instance that has no classifier yet and is not degenerate,
    [predict] and [evaluate] raise [AttributeError] at once: no collaborator
    is called, nothing is logged and nothing changes. *)
Theorem predict_without_classifier m w (examples : list Query) (labels : list Label) :
  _no_entities m = false →
  _clf m = None →
  predict examples (m, w)
  = (Raise (AttributeError "'NoneType' object has no attribute"), (m, w))
  ∧ evaluate examples labels (m, w)
    = (Raise (AttributeError "'NoneType' object has no attribute"), (m, w)).
Proof.
  intros Hflag Hclf.
  assert (predict examples (m, w)
          = (Raise (AttributeError "'NoneType' object has no attribute"), (m, w))) as Hp.
  { by rewrite predict_spec, Hflag, Hclf. }
  split; [exact Hp|]. by rewrite evaluate_spec, Hp.
Qed.

Lemma record_at_lookup (labels predictions : list Label) (lt : string)
    (examples : list Query) records :
  mapM (record_at labels predictions lt) (zip (seq 0 (length examples)) examples)
  = Some records →
  length records = length examples
  ∧ ∀ i e, examples !! i = Some e →
           ∃ expected predicted,
             labels !! i = Some expected
             ∧ predictions !! i = Some predicted
             ∧ records !! i
               = Some {| ee_example := e; ee_expected := expected;
                         ee_predicted := predicted; ee_probas := None;
                         ee_label_type := lt |}.
Proof.
  intros Hmap. apply mapM_Some_1 in Hmap.
  assert (length (zip (seq 0 (length examples)) examples) = length examples) as Hzl.
  { rewrite length_zip_with, length_seq. lia. }
  split; [by rewrite <-(Forall2_length _ _ _ Hmap)|].
  intros i e Hi.
  assert (zip (seq 0 (length examples)) examples !! i = Some (i, e)) as Hzi.
  { apply lookup_zip_Some. split; [|done].
    apply lookup_seq. split; [done|]. by eapply lookup_lt_Some. }
  destruct (Forall2_lookup_l _ _ _ _ _ Hmap Hzi) as (record & Hrec & Hat).
  unfold record_at in Hat. cbn in Hat.
  destruct (labels !! i) as [expected|]; [|done]. cbn in Hat.
  destruct (predictions !! i) as [predicted|]; [|done]. cbn in Hat.
  exists expected, predicted. injection Hat as <-. done.
Qed.

(** X6. [evaluate] on an instance that is not degenerate, when it returns:
    it has run [predict] once and done nothing else to the state, and the
    report holds exactly one record per example, in order, made of the
    example, the expected label and the prediction at the same index, no
    probabilities, and the label type of the configuration. *)
Theorem evaluate_report_records m w (examples : list Query) (labels : list Label)
    result s' :
  _no_entities m = false →
  evaluate examples labels (m, w) = (Return result, s') →
  ∃ predictions report,
    predict examples (m, w) = (Return predictions, s')
    ∧ result = Some report
    ∧ length (eme_results report) = length examples
    ∧ length predictions = length examples
    ∧ length examples ≤ length labels
    ∧ ∀ i e, examples !! i = Some e →
             ∃ expected predicted,
               labels !! i = Some expected
               ∧ predictions !! i = Some predicted
               ∧ eme_results report !! i
                 = Some {| ee_example := e; ee_expected := expected;
                           ee_predicted := predicted; ee_probas := None;
                           ee_label_type := label_type (config m) |}.
Proof.
  intros Hflag. rewrite evaluate_spec by done.
  destruct (predict examples (m, w)) as [[predictions|e] s1] eqn:Hp; [|done].
  destruct (mapM _ _) as [records|] eqn:Hmap; [|done].
  intros [= <- <-].
  destruct (record_at_lookup _ _ _ _ _ Hmap) as [Hlen Hat].
  eexists predictions, _. split; [done|]. split; [done|]. cbn.
  split; [exact Hlen|].
  assert (length examples ≤ length labels ∧ length examples ≤ length predictions)
    as [Hll Hlp].
  { destruct (decide (length examples = 0)) as [->|Hne]; [lia|].
    destruct (lookup_lt_is_Some_2 examples (length examples - 1)) as [e He]; [lia|].
    destruct (Hat _ _ He) as (expected & predicted & Hl & Hpr & _).
    apply lookup_lt_Some in Hl, Hpr. lia. }
  split; [|split; [exact Hll|exact Hat]].
  pose proof (predict_length_le examples predictions m w s1 Hflag Hp). lia.
Qed.

(** X7. [evaluate] never returns a shortened report: when [predict] has
    returned and the expected labels, or the predictions, are fewer than the
    examples, it raises [IndexError] after the whole prediction has run and
    builds no report. *)
Theorem evaluate_misaligned_raises m w (examples : list Query)
    (labels predictions : list Label) s1 :
  _no_entities m = false →
  predict examples (m, w) = (Return predictions, s1) →
  length labels < length examples ∨ length predictions < length examples →
  evaluate examples labels (m, w) = (Raise IndexError, s1).
Proof.
  intros Hflag Hp Hshort. rewrite evaluate_spec, Hp by done.
  rewrite (mapM_None_2 (record_at labels predictions (label_type (config m)))); [done|].
  set (i := if decide (length labels < length examples) then length labels
            else length predictions).
  assert (i < length examples) as Hi.
  { subst i. case_decide; lia. }
  destruct (lookup_lt_is_Some_2 examples i Hi) as [e He].
  apply Exists_exists. exists (i, e). split.
  - apply list_elem_of_lookup. exists i. apply lookup_zip_Some. split; [|done].
    apply lookup_seq. by split.
  - unfold record_at. cbn. subst i. case_decide.
    + by rewrite (lookup_ge_None_2 labels).
    + destruct (labels !! length predictions); [|done]. cbn.
      by rewrite (lookup_ge_None_2 predictions).
Qed.

(** X8. The errors of classifier selection by kind of value.  Without a
    ['classifier_type'] key the [KeyError] of the lookup gets out as it is
    (the lookup is made before the [try]); a list or a dict as the type is
    a [TypeError] (unhashable), not the configuration error; any other value
    than the two known strings, of whatever type, is the [ValueError] with
    the dynamic class name and the [repr] of the value.  The state is
    untouched in each case. *)
Theorem get_model_constructor_errors m w :
  (model_settings (config m) !! "classifier_type" = None →
   _get_model_constructor (m, w) = (Raise (KeyError "classifier_type"), (m, w)))
  ∧ (∀ v, model_settings (config m) !! "classifier_type" = Some v →
          PyRepr.hashable v = false →
          _get_model_constructor (m, w) = (Raise (TypeError "unhashable type"), (m, w)))
  ∧ (∀ v, model_settings (config m) !! "classifier_type" = Some v →
          PyRepr.hashable v = true →
          v ≠ VStr "memm" → v ≠ VStr "crf" →
          _get_model_constructor (m, w)
          = (Raise (ValueError (not_recognized (class_name m) v)), (m, w))).
Proof.
  unfold _get_model_constructor, bind, get_self. cbn. split; [|split].
  - by intros ->.
  - intros v -> Hv. by rewrite Hv.
  - intros v -> Hv Hm Hc. rewrite Hv. destruct v as [| | |tag| |]; try done.
    destruct (String.eqb_spec tag MEMM_TYPE) as [->|_]; [done|].
    by destruct (String.eqb_spec tag CRF_TYPE) as [->|_].
Qed.

(** ** [__getstate__] again *)

Lemma prune_noop (r : loc) (keys : list string) m w :
  Forall (λ k, k ∈ resources_to_persist) keys →
  for_each (prune_step r) keys (m, w) = (Return (), (m, w)).
Proof.
  induction 1 as [|k keys Hk _ IH]; [done|].
  cbn [for_each]. unfold bind. unfold prune_step at 1.
  rewrite bool_decide_eq_false_2 by (by intros ?). cbn. exact IH.
Qed.

Lemma getstate_noop m w :
  dom (heap w !!! _resources m) ⊆ resources_to_persist →
  __getstate__ (m, w) = (Return m, (m, w)).
Proof.
  intros Hdom.
  unfold __getstate__. unfold bind at 1. cbn [get_self fst].
  unfold bind at 1. cbn [read_dict fst snd].
  unfold bind at 1. fold (prune_step (_resources m)).
  rewrite prune_noop; [done|].
  apply Forall_forall. intros k Hk.
  apply list_elem_of_fmap in Hk as ([k' v] & -> & Hkv).
  apply elem_of_map_to_list in Hkv. apply Hdom. by eapply elem_of_dom_2.
Qed.

(** X9. [__getstate__] is idempotent, and it is the identity on the whole
    state when the resource cache holds no key besides ['sys_types']: a
    second call returns the same attributes and deletes nothing. *)
Theorem getstate_idempotent m w :
  (dom (heap w !!! _resources m) ⊆ resources_to_persist →
   __getstate__ (m, w) = (Return m, (m, w)))
  ∧ __getstate__ (__getstate__ (m, w)).2 = (Return m, (__getstate__ (m, w)).2).
Proof.
  split; [apply getstate_noop|].
  destruct (getstate_spec m w) as (w' & -> & _ & _ & _ & Hkeys). cbn [snd].
  apply getstate_noop. intros k Hk.
  apply elem_of_dom in Hk as [v Hv]. rewrite Hkeys in Hv. by case_decide.
Qed.

(** ** The ways [fit] can fail *)

Lemma fit_shuffled_Raise (skip : bool) (params : option Params)
    (examples : list Query) (labels : list Label) m w e s' :
  fit_shuffled skip params examples labels (m, w) = (Raise e, s') →
  _current_params s'.1 = _current_params m
  ∧ _no_entities s'.1 = _no_entities m
  ∧ types s'.1 = Some (entity_types labels)
  ∧ fit_error m w e.
Proof.
  intros Hrun.
  destruct (decide (entity_types labels = [])) as [Hty|Hty].
  { by rewrite fit_shuffled_degenerate in Hrun. }
  destruct (_get_model_constructor (m, w)).1 as [cls|e'] eqn:Hctor.
  2:{ rewrite (fit_shuffled_selection_fails _ _ _ _ _ _ e') in Hrun by done.
      injection Hrun as <- <-. cbn. repeat split. by left. }
  unfold fit_shuffled in Hrun.
  rewrite bool_decide_eq_false_2 in Hrun by (by rewrite no_types_iff).
  unfold bind at 1 in Hrun. cbn [set_types modify_self fst snd] in Hrun.
  unfold bind at 1 in Hrun.
  rewrite (get_model_constructor_frame _ m _ w) in Hrun by done.
  rewrite Hctor in Hrun. step_methods in Hrun.
  destruct skip, params as [p|]; cbn in Hrun; split_answers_in Hrun; try discriminate.
  all: injection Hrun as <- <-; cbn; repeat split.
  all: first [ by (right; left) | right; right; eauto ].
Qed.

Lemma picked_take {A} (l : list A) n idx l' :
  Forall (λ i, i < n) idx →
  Forall2 (λ i a, l !! i = Some a) idx l' →
  Forall2 (λ i a, take n l !! i = Some a) idx l'.
Proof.
  intros Hlt Hpick. induction Hpick as [|i a idx l' Hi _ IH]; [constructor|].
  inversion Hlt as [|?? Hin Hrest]; subst.
  constructor; [|by apply IH]. by rewrite lookup_take_lt.
Qed.

(** X10. A [fit] that raises has recorded no parameters and has not
    touched the degenerate flag: [_current_params] and [_no_entities] are
    what they were.  It raises [IndexError], before [types] is assigned,
    exactly when the examples are fewer than the labels; otherwise [types]
    already holds the entity types of the labels (in shuffled order) and the
    exception is the error of classifier selection, the [TypeError] of
    unpacking missing parameters, or the error of a collaborator. *)
Theorem fit_failure_keeps_params m w (examples : list Query) (labels : list Label)
    (params : option Params) e s' :
  fit examples labels params (m, w) = (Raise e, s') →
  _current_params s'.1 = _current_params m
  ∧ _no_entities s'.1 = _no_entities m
  ∧ ((length examples < length labels ∧ e = IndexError ∧ types s'.1 = types m)
     ∨ (length labels ≤ length examples
        ∧ fit_error m w e
        ∧ ∃ tys, types s'.1 = Some tys ∧ tys ≡ₚ entity_types labels)).
Proof.
  intros Hrun.
  destruct (decide (length labels ≤ length examples)) as [Hlen|Hlen].
  - destruct (fit_enters_shuffled examples labels params m w Hlen)
      as (idx & g & ex' & lb' & Hperm & _ & Hlb & Hfit).
    rewrite Hfit in Hrun.
    apply (fit_shuffled_Raise _ _ ex' lb' m (with_rng (m, w) g).2) in Hrun
      as (Hp & Hflag & Hty & Herr).
    split; [exact Hp|]. split; [exact Hflag|]. right. split; [done|]. split.
    + destruct Herr as [Hsel|Herr]; [left|by right].
      by rewrite (get_model_constructor_frame m m w (with_rng (m, w) g).2).
    + eexists. split; [exact Hty|]. by apply (picked_entity_types labels lb' idx).
  - destruct (fit_IndexError examples labels params m w) as [g Hg]; [lia|].
    rewrite Hg in Hrun. injection Hrun as <- <-.
    split; [done|]. split; [done|]. left. split; [lia|done].
Qed.

(** X11. How a successful training is wired.  When [fit] returns on labels
    with an entity type, the calls it made are, in this order and no others:
    the classifier of the configured class is instantiated and set up, the
    label encoder is obtained, the shuffled labels are encoded, features are
    extracted from the shuffled examples and the encoded labels, the search
    is run on those features if it is not skipped, then [set_params] and
    [fit] are called once each.  [fit] is given the very features and
    targets that [extract_features] returned, [_current_params] is the
    dictionary that was passed to [set_params], and [_clf] is what the
    classifier's [fit] returned. *)
Theorem fit_trains_on_extracted_features m w (examples : list Query)
    (labels : list Label) (params : option Params) r s' :
  entity_types labels ≠ [] →
  fit examples labels params (m, w) = (Return r, s') →
  ∃ examples' labels' cls clf0 clf1 enc y0 X y groups clf2 p clf3 clf4,
    zip examples' labels' ≡ₚ zip (take (length labels) examples) labels
    ∧ (_get_model_constructor (m, w)).1 = Return cls
    ∧ instantiate cls = inr clf0
    ∧ setup_model clf0 (config m) = inr clf1
    ∧ get_label_encoder (config m) = inr enc
    ∧ label_encode enc labels' examples' = inr y0
    ∧ extract_features clf1 examples' (config m) (heap w !!! _resources m) y0 true
      = inr (X, y, groups, clf2)
    ∧ set_params clf2 p = inr clf3
    ∧ clf_fit clf3 X y = inr clf4
    ∧ _clf r = Some clf4
    ∧ _label_encoder r = Some enc
    ∧ _current_params r = Some p
    ∧ trace s'.2
      = trace w
        ++ [CallInstantiate cls; CallSetupModel (config m);
            CallGetLabelEncoder (config m); CallEncode labels' examples';
            CallExtractFeatures examples' y0 true]
        ++ (if skip_param_selection params m then [] else [CallFitCV X y groups])
        ++ [CallSetParams p; CallClfFit X y].
Proof.
  intros Hty Hrun.
  destruct (decide (length labels ≤ length examples)) as [Hlen|Hlen].
  2:{ destruct (fit_IndexError examples labels params m w) as [g Hg]; [lia|].
      rewrite Hg in Hrun. discriminate. }
  destruct (fit_enters_shuffled examples labels params m w Hlen)
    as (idx & g & ex' & lb' & Hperm & Hex & Hlb & Hfit).
  rewrite Hfit in Hrun.
  apply fit_shuffled_Return in Hrun
    as (cls & clf0 & clf1 & enc & y0 & X & y & groups & clf2 & p & clf3 & clf4
        & Hsel & H0 & H1 & H2 & H3 & H4 & _ & H5 & H6 & -> & ->).
  2:{ by rewrite (picked_entity_types_nil labels lb' idx). }
  exists ex', lb', cls, clf0, clf1, enc, y0, X, y, groups, clf2, p, clf3, clf4.
  split.
  { assert (length (zip (take (length labels) examples) labels) = length labels) as Hzl.
    { rewrite length_zip_with, length_take. lia. }
    apply (picked_Permutation _ idx); [by rewrite Hzl|].
    apply picked_zip; [|done].
    apply picked_take; [|done].
    rewrite Hperm. apply Forall_forall. intros i Hi. apply elem_of_seq in Hi. lia. }
  split.
  { rewrite (get_model_constructor_frame m m w (with_rng (m, w) g).2) by done.
    exact (f_equal fst Hsel). }
  do 7 (split; [done|]). do 3 (split; [done|]).
  reflexivity.
Qed.

Lemma fit_shuffled_no_params (examples : list Query) (labels : list Label) m w
    cls clf0 clf1 enc y0 X y groups clf2 :
  entity_types labels ≠ [] →
  (_get_model_constructor (m, w)).1 = Return cls →
  instantiate cls = inr clf0 →
  setup_model clf0 (config m) = inr clf1 →
  get_label_encoder (config m) = inr enc →
  label_encode enc labels examples = inr y0 →
  extract_features clf1 examples (config m) (heap w !!! _resources m) y0 true
    = inr (X, y, groups, clf2) →
  fit_shuffled true None examples labels (m, w)
  = (Raise (TypeError not_a_mapping),
     ({| class_name := class_name m; config := config m; _resources := _resources m;
         _clf := Some clf2; _label_encoder := Some enc;
         _current_params := _current_params m; _no_entities := _no_entities m;
         types := Some (entity_types labels) |},
      traced w [CallInstantiate cls; CallSetupModel (config m);
                CallGetLabelEncoder (config m); CallEncode labels examples;
                CallExtractFeatures examples y0 true])).
Proof.
  intros Hty Hctor H0 H1 Henc Hy0 HX. unfold fit_shuffled.
  rewrite bool_decide_eq_false_2 by (by rewrite no_types_iff).
  unfold bind at 1. cbn [set_types modify_self fst snd].
  unfold bind at 1.
  rewrite (get_model_constructor_frame _ m _ w) by done.
  rewrite Hctor.
  unfold _fit, get_clf.
  unfold bind, call, emit, ret, raise, set_clf, set_label_encoder, set_current_params,
    set_no_entities, set_types, modify_self, get_self, read_dict.
  cbn. rewrite H0. cbn. rewrite H1. cbn. rewrite Henc. cbn. rewrite Hy0. cbn.
  rewrite HX. cbn. unfold traced. by rewrite <-!app_assoc.
Qed.

(** X12. Training with no parameters to be had.  When the search is
    skipped and neither the call nor the configuration provides parameters
    ([params] is [None] or empty and [config.params] is [None]), [fit] raises
    the [TypeError] of unpacking [None], and it does so late: the classifier
    has been built and set up, the labels encoded and the features extracted;
    [set_params] and the classifier's [fit] are never called, [_clf] and
    [_label_encoder] have been replaced and [_current_params] has not. *)
Theorem fit_without_params_raises m w (examples : list Query) (labels : list Label)
    (params : option Params) :
  entity_types labels ≠ [] →
  length labels ≤ length examples →
  recognized (config m) →
  collaborators_answer →
  truthy params = false →
  config_params m = None →
  is_Some params ∨ param_selection (config m) = None →
  ∃ s' evs,
    fit examples labels params (m, w) = (Raise (TypeError not_a_mapping), s')
    ∧ is_Some (_clf s'.1)
    ∧ is_Some (_label_encoder s'.1)
    ∧ _current_params s'.1 = _current_params m
    ∧ trace s'.2 = trace w ++ evs
    ∧ Forall (λ e, is_training_call e = false) evs
    ∧ ∃ examples' y0, CallExtractFeatures examples' y0 true ∈ evs.
Proof.
  intros Hty Hlen Hrec (Hinst & Hsetup & Henc & Hencode & Hextract & _) Htr Hcp Hskip.
  destruct (fit_enters_shuffled examples labels params m w Hlen)
    as (idx & g & ex' & lb' & Hperm & Hex & Hlb & Hfit).
  rewrite (proj2 (skip_param_selection_iff params m) Hskip) in Hfit.
  unfold py_or in Hfit. rewrite Htr, Hcp in Hfit.
  set (w1 := (with_rng (m, w) g).2) in *.
  assert (∃ cls, (_get_model_constructor (m, w1)).1 = Return cls) as [cls Hcls].
  { destruct Hrec as [Hr|Hr].
    - exists MemmModel. by rewrite get_model_constructor_memm.
    - exists ConditionalRandomFields. by rewrite get_model_constructor_crf. }
  destruct (Hinst cls) as [clf0 H0].
  destruct (Hsetup clf0 (config m)) as [clf1 H1].
  destruct (Henc (config m)) as [enc H2].
  destruct (Hencode enc lb' ex') as [y0 H3].
  destruct (Hextract clf1 ex' (config m) (heap w1 !!! _resources m) y0 true)
    as [[[[X y] groups] clf2] H4].
  eexists _, _. split.
  { rewrite Hfit.
    apply (fit_shuffled_no_params ex' lb' m w1 cls clf0 clf1 enc y0 X y groups clf2);
      try done.
    by rewrite (picked_entity_types_nil labels lb' idx). }
  cbn. split; [by eexists|]. split; [by eexists|]. split; [done|]. split; [done|].
  split; [by repeat constructor|].
  exists ex', y0. rewrite !elem_of_cons. do 4 right. by left.
Qed.

(** X13. When the instance was not degenerate before, a [fit] that returns
    on labels with an entity type leaves it ready to predict: [predict] then
    asks the classifier that this [fit] stored, with the configuration and
    the resources of the instance, and decodes what it answers; it never
    takes the short cut of the degenerate case. *)
Theorem fit_then_predict_consults_classifier m w (examples examples2 : list Query)
    (labels : list Label) (params : option Params) r s' :
  _no_entities m = false →
  entity_types labels ≠ [] →
  fit examples labels params (m, w) = (Return r, s') →
  ∃ clf,
    _clf r = Some clf
    ∧ s'.1 = r
    ∧ predict examples2 s'
      = match extract_and_predict clf examples2 (config m) (heap w !!! _resources m) with
        | inl msg =>
            (Raise (CollaboratorError Classifier msg),
             (r, traced s'.2 [CallExtractAndPredict examples2]))
        | inr tags =>
            traverse decode_one (zip tags examples2)
              (r, traced s'.2 [CallExtractAndPredict examples2])
        end.
Proof.
  intros Hflag Hty Hrun.
  destruct (decide (length labels ≤ length examples)) as [Hlen|Hlen].
  2:{ destruct (fit_IndexError examples labels params m w) as [g Hg]; [lia|].
      rewrite Hg in Hrun. discriminate. }
  destruct (fit_enters_shuffled examples labels params m w Hlen)
    as (idx & g & ex' & lb' & Hperm & Hex & Hlb & Hfit).
  rewrite Hfit in Hrun.
  apply fit_shuffled_Return in Hrun
    as (cls & clf0 & clf1 & enc & y0 & X & y & groups & clf2 & p & clf3 & clf4
        & _ & _ & _ & _ & _ & _ & _ & _ & _ & -> & ->).
  2:{ by rewrite (picked_entity_types_nil labels lb' idx). }
  exists clf4. split; [done|]. split; [done|].
  rewrite predict_spec. cbn. by rewrite Hflag.
Qed.

(** X14. The degenerate flag after [fit], in every case: it is set exactly
    when it was set before or when the labels (at most as many as the
    examples) carry no entity type at all.  [fit] never marks as degenerate
    a model trained on labels with an entity, and never clears the flag. *)
Theorem fit_flag_characterised m w (examples : list Query) (labels : list Label)
    (params : option Params) :
  _no_entities (fit examples labels params (m, w)).2.1 = true
  ↔ _no_entities m = true
    ∨ (length labels ≤ length examples ∧ entity_types labels = []).
Proof.
  destruct (decide (length labels ≤ length examples)) as [Hlen|Hlen].
  2:{ destruct (fit_IndexError examples labels params m w) as [g ->]; [lia|]. cbn.
      split; [by left|]. intros [?|[? _]]; [done|lia]. }
  destruct (fit_enters_shuffled examples labels params m w Hlen)
    as (idx & g & ex' & lb' & Hperm & _ & Hlb & ->).
  pose proof (picked_entity_types_nil labels lb' idx Hperm Hlb) as Hnil.
  change (with_rng (m, w) g) with (m, (with_rng (m, w) g).2).
  destruct (decide (entity_types lb' = [])) as [Hty|Hty].
  { rewrite fit_shuffled_degenerate by done. cbn.
    split; [|done]. intros _. right. split; [done|]. by apply Hnil. }
  destruct (fit_shuffled (skip_param_selection params m) (py_or params (config_params m))
              ex' lb' (m, (with_rng (m, w) g).2)) as [[r|e] s'] eqn:Hrun.
  - apply fit_shuffled_Return in Hrun
      as (cls & clf0 & clf1 & enc & y0 & X & y & groups & clf2 & p & clf3 & clf4
          & _ & _ & _ & _ & _ & _ & _ & _ & _ & _ & ->); [|done].
    cbn. split; [by left|]. intros [?|[_ ?]]; [done|]. by destruct Hty; apply Hnil.
  - apply fit_shuffled_Raise in Hrun as (_ & Hflag & _).
    cbn. rewrite Hflag. split; [by left|].
    intros [?|[_ ?]]; [done|]. by destruct Hty; apply Hnil.
Qed.

(** X15. With at most one label there is nothing to shuffle: the loop of
    [random.shuffle] has no turn, the random source is not consulted, and
    [fit] goes on with the labels as given and the first [len(labels)]
    examples. *)
Theorem fit_single_label_draws_nothing m w (examples : list Query) (labels : list Label)
    (params : option Params) :
  length labels ≤ 1 →
  length labels ≤ length examples →
  fit examples labels params (m, w)
  = fit_shuffled (skip_param_selection params m) (py_or params (config_params m))
      (take (length labels) examples) labels (m, w).
Proof.
  intros Hone Hlen. rewrite fit_unfold.
  destruct labels as [|label [|??]]; [| |cbn in Hone; lia].
  - reflexivity.
  - destruct examples as [|example examples]; [cbn in Hlen; lia|]. reflexivity.
Qed.

End Coverage.

Lemma predict_labels_aligned_witness :
  ∃ labels s',
    predict (C := Demo.collaborators) ["book a table"; "thanks"] (fitted.1, fitted.2)
    = (Return labels, s')
    ∧ length labels = 2
    ∧ s'.1 = fitted.1.
Proof.
  eexists _, _. split; [vm_compute; reflexivity|].
  match goal with
  | |- length ?labels = _ ∧ ?s'.1 = _ =>
      destruct (predict_labels_aligned (C := Demo.collaborators) fitted.1 fitted.2
                  ["book a table"; "thanks"] labels s')
        as (clf & tags & _ & Htags & Hlen & _ & Hs')
  end.
  - reflexivity.
  - vm_compute. reflexivity.
  - split; [reflexivity|]. by rewrite Hs'.
Defined.

Lemma predict_without_classifier_witness :
  predict (C := Demo.collaborators) ["book a table"] (model "memm", Demo.world0)
  = (Raise (AttributeError "'NoneType' object has no attribute"), (model "memm", Demo.world0))
  ∧ evaluate (C := Demo.collaborators) ["book a table"] [ [] ] (model "memm", Demo.world0)
    = (Raise (AttributeError "'NoneType' object has no attribute"),
       (model "memm", Demo.world0)).
Proof.
  apply (predict_without_classifier (C := Demo.collaborators)); reflexivity.
Defined.

Lemma evaluate_report_records_witness :
  ∃ report s',
    evaluate (C := Demo.collaborators) ["book a table"; "thanks"]
      [ [Demo.ent "time"]; [] ] (fitted.1, fitted.2) = (Return (Some report), s')
    ∧ length (eme_results report) = 2.
Proof.
  eexists _, _. split; [vm_compute; reflexivity|].
  match goal with
  | |- length (eme_results ?report) = _ =>
      destruct (evaluate_report_records (C := Demo.collaborators) fitted.1 fitted.2
                  ["book a table"; "thanks"] [ [Demo.ent "time"]; [] ] (Some report)
                  (evaluate (C := Demo.collaborators) ["book a table"; "thanks"]
                     [ [Demo.ent "time"]; [] ] (fitted.1, fitted.2)).2)
        as (predictions & report' & _ & Hsome & Hlen & _)
  end.
  - reflexivity.
  - vm_compute. reflexivity.
  - injection Hsome as ->. exact Hlen.
Defined.

Lemma evaluate_misaligned_raises_witness :
  (evaluate (C := Demo.collaborators) ["book a table"; "thanks"] [ [Demo.ent "time"] ]
     (fitted.1, fitted.2)).1
  = Raise IndexError.
Proof.
  rewrite (evaluate_misaligned_raises (C := Demo.collaborators) fitted.1 fitted.2
             ["book a table"; "thanks"] [ [Demo.ent "time"] ]
             [ [{| entity := {| type := "book a table"; text := "book a table" |};
                   span := (0, 0) |}];
               [{| entity := {| type := "thanks"; text := "thanks" |}; span := (0, 0) |}] ]
             (predict (C := Demo.collaborators) ["book a table"; "thanks"]
                (fitted.1, fitted.2)).2).
  - reflexivity.
  - reflexivity.
  - vm_compute. reflexivity.
  - left. cbn. lia.
Defined.

Lemma fit_failure_keeps_params_witness :
  let out := fit (C := Demo.collaborators) ["book a table"] [ [Demo.ent "time"] ] None
               (fitted.1, fitted.2) in
  let broken := fit (C := Demo.collaborators) [] [ [Demo.ent "time"] ] None
                  (fitted.1, fitted.2) in
  broken.1 = Raise IndexError
  ∧ _current_params broken.2.1 = _current_params fitted.1
  ∧ _no_entities broken.2.1 = _no_entities fitted.1.
Proof.
  intros out broken. split; [vm_compute; reflexivity|].
  destruct (fit_failure_keeps_params (C := Demo.collaborators) fitted.1 fitted.2
              [] [ [Demo.ent "time"] ] None IndexError broken.2) as (Hp & Hflag & _).
  - vm_compute. reflexivity.
  - by split.
Defined.

Lemma fit_trains_on_extracted_features_witness :
  ∃ r s' p,
    fit (C := Demo.collaborators) ["find a cafe"; "hello"] [ [Demo.ent "place"]; [] ] None
      (model "memm", Demo.world0) = (Return r, s')
    ∧ _current_params r = Some p
    ∧ CallSetParams p ∈ trace s'.2.
Proof.
  assert (∃ r s', fit (C := Demo.collaborators) ["find a cafe"; "hello"]
                    [ [Demo.ent "place"]; [] ] None (model "memm", Demo.world0)
                  = (Return r, s')) as (r & s' & Hrun).
  { eexists _, _. vm_compute. reflexivity. }
  destruct (fit_trains_on_extracted_features (C := Demo.collaborators)
              (model "memm") Demo.world0 ["find a cafe"; "hello"]
              [ [Demo.ent "place"]; [] ] None r s')
    as (ex' & lb' & cls & clf0 & clf1 & enc & y0 & X & y & groups & clf2 & p & clf3 & clf4
        & _ & _ & _ & _ & _ & _ & _ & _ & _ & _ & _ & Hp & Htr).
  - discriminate.
  - exact Hrun.
  - exists r, s', p. split; [exact Hrun|]. split; [exact Hp|].
    rewrite Htr. apply elem_of_app. right. apply elem_of_app. right.
    apply elem_of_app. right. by left.
Defined.

Lemma fit_without_params_raises_witness :
  ∃ s',
    fit (C := Demo.collaborators) ["find a cafe"] [ [Demo.ent "place"] ] (Some ∅)
      (constructed paramless_cfg 1%positive, Demo.world0)
    = (Raise (TypeError not_a_mapping), s')
    ∧ is_Some (_clf s'.1)
    ∧ _current_params s'.1 = None.
Proof.
  destruct (fit_without_params_raises (C := Demo.collaborators)
              (constructed paramless_cfg 1%positive) Demo.world0
              ["find a cafe"] [ [Demo.ent "place"] ] (Some ∅))
    as (s' & evs & Hrun & Hclf & _ & Hp & _).
  - discriminate.
  - cbn. lia.
  - left. reflexivity.
  - repeat split; intros; eexists; reflexivity.
  - reflexivity.
  - reflexivity.
  - left. by eexists.
  - exists s'. split; [exact Hrun|]. split; [exact Hclf|exact Hp].
Defined.

Lemma fit_then_predict_consults_classifier_witness :
  ∃ evs,
    trace (predict (C := Demo.collaborators) ["book a table"] (fitted.1, fitted.2)).2.2
    = trace fitted.2 ++ @CallExtractAndPredict Demo.collaborators ["book a table"] :: evs.
Proof.
  destruct (fit_then_predict_consults_classifier (C := Demo.collaborators)
              (model "memm") Demo.world0 ["find a cafe"; "hello"] ["book a table"]
              [ [Demo.ent "place"]; [] ] None fitted.1 fitted) as (clf & _ & _ & Hpred).
  - reflexivity.
  - discriminate.
  - vm_compute. reflexivity.
  - eexists. vm_compute. reflexivity.
Defined.

Lemma fit_single_label_draws_nothing_witness :
  rng (fit (C := Demo.collaborators) ["find a cafe"; "hello"] [ [Demo.ent "place"] ] None
         (model "memm", Demo.world0)).2.2
  = rng Demo.world0.
Proof.
  rewrite (fit_single_label_draws_nothing (C := Demo.collaborators)).
  - reflexivity.
  - cbn. lia.
  - cbn. lia.
Defined.
